(** * DoNotMiss: task capture, review and issue-tracker hand-off

    A shallow embedding of the parts of the DoNotMiss browser extension and
    of its Forge resolvers that carry the task lifecycle:

    - [JS]          strings as sequences of UTF-16 code units, with the
                    string methods the sources call;
    - [Classifier]  [detectSource] of donotmiss-extension/background.js;
    - [Popup]       the title generation of [handleTaskAction] in the popup
                    script;
    - [WakeUp]      the wake-up procedure [wakeUpBackend] of the popup
                    script, as a transition system over the events of the
                    event loop;
    - [Forge]       the resolvers of donotmiss-forge/src/index.js that keep
                    the task list in Forge storage, in a state monad over
                    the storage and a log of the requests made;
    - [ForgeBackend] the resolvers of the variant that delegates to the
                    Flask backend;
    - [Dashboard]   the per-status action buttons of the review surface and
                    the resolver calls they lead to.

    The tracker and the backend are outside the code: they enter as
    functions from a request to its outcome. *)

From Stdlib Require Import ZArith NArith String Ascii DecimalString.
From stdpp Require Import base option list gmap.

(* ===================================================================== *)
(** ** JavaScript strings *)
(* ===================================================================== *)

Module JS.

Local Open Scope N_scope.

(** A JavaScript string is a finite sequence of UTF-16 code units;
    [length], [substring] and [includes] all count code units. *)
Abbreviation jstr := (list N).

(** A string literal of the sources (all of them are ASCII, apart from
    decorative emoji that no definition below inspects). *)
Definition str (s : string) : jstr := N_of_ascii <$> list_ascii_of_string s.

(** [s.substring(0, n)]: the code units before index [n]; the whole string
    when it is shorter. *)
Definition substring0 (n : nat) (s : jstr) : jstr := take n s.

(** The code units [String.prototype.trim] strips: ECMAScript's WhiteSpace
    and LineTerminator productions (TAB, LF, VT, FF, CR, SP, NBSP, the
    other space separators, LS, PS and the byte-order mark). *)
Definition is_white_space (c : N) : bool :=
  ((9 <=? c) && (c <=? 13)) || (c =? 32) || (c =? 160) || (c =? 5760)
  || ((8192 <=? c) && (c <=? 8202)) || (c =? 8232) || (c =? 8233)
  || (c =? 8239) || (c =? 8287) || (c =? 12288) || (c =? 65279).

Fixpoint trimStart (s : jstr) : jstr :=
  match s with
  | c :: s' => if is_white_space c then trimStart s' else s
  | [] => []
  end.

Definition trimEnd (s : jstr) : jstr := reverse (trimStart (reverse s)).

(** [s.trim()] *)
Definition trim (s : jstr) : jstr := trimEnd (trimStart s).

(** Neither end of [s] is a code unit that [trim] strips. *)
Definition tight (s : jstr) : Prop :=
  (∀ c, head s = Some c → is_white_space c = false) ∧
  (∀ c, last s = Some c → is_white_space c = false).

(** [String.prototype.toLowerCase] on one code unit below 256: the ASCII
    capitals and the Latin-1 capitals (all of U+00C0..U+00DE but the
    multiplication sign) move up by 32.  Code units from 256 on are left
    as they are, which the built-in does not do for all of them (the
    Kelvin sign U+212A lowers to k): what is stated of a lowered string is
    stated of [latin1] strings only.  The one string lowered in the
    sources is a page URL, which the browser hands over in its serialised,
    ASCII form. *)
Definition lower_unit (c : N) : N :=
  if ((65 <=? c) && (c <=? 90))
     || ((192 <=? c) && (c <=? 222) && negb (c =? 215))
  then c + 32 else c.

Definition toLowerCase (s : jstr) : jstr := lower_unit <$> s.

(** Every code unit of [s] is below 256: the strings on which [toLowerCase]
    above is [String.prototype.toLowerCase]. *)
Definition latin1 (s : jstr) : bool := forallb (λ c, c <? 256) s.

(** [s.startsWith(p)] *)
Fixpoint startsWith (s p : jstr) {struct p} : bool :=
  match p, s with
  | [], _ => true
  | a :: p', b :: s' => (a =? b) && startsWith s' p'
  | _ :: _, [] => false
  end.

(** [s.includes(p)]: [p] occurs in [s] as a contiguous run of code units. *)
Fixpoint includes (s p : jstr) : bool :=
  startsWith s p ||
  match s with
  | [] => false
  | _ :: s' => includes s' p
  end.

(** A string operand of [||]: [undefined], [null] and the empty string are
    falsy, every other string is truthy. *)
Definition truthy (x : option jstr) : bool :=
  match x with
  | Some (_ :: _) => true
  | _ => false
  end.

(** [x || y] where [y] is a string. *)
Definition or_else (x : option jstr) (y : jstr) : jstr :=
  match x with
  | Some (c :: s) => c :: s
  | _ => y
  end.

(** [x || y] where [y] may itself be absent. *)
Definition or_opt (x y : option jstr) : option jstr :=
  if truthy x then x else y.

(** [x || null] *)
Definition or_null (x : option jstr) : option jstr :=
  if truthy x then x else None.

End JS.

Import JS.

(* ===================================================================== *)
(** ** Source classifier (donotmiss-extension/background.js) *)
(* ===================================================================== *)

Module Classifier.

Inductive Source := email | chat | jira | web.

Definition email_fragments : list jstr :=
  [str "mail.google.com"; str "outlook."; str "/mail"].

Definition chat_fragments : list jstr :=
  [str "slack.com"; str "teams.microsoft.com"; str "discord.com"].

Definition jira_fragments : list jstr :=
  [str "atlassian.net"; str "jira"].

(** [lowerUrl.includes(f1) || lowerUrl.includes(f2) || ...] *)
Definition includes_any (lowerUrl : jstr) (fragments : list jstr) : bool :=
  existsb (includes lowerUrl) fragments.

Definition detectSource (url : option jstr) : Source :=
  if negb (truthy url) then web
  else
    let lowerUrl := toLowerCase (default [] url) in
    if includes_any lowerUrl email_fragments then email
    else if includes_any lowerUrl chat_fragments then chat
    else if includes_any lowerUrl jira_fragments then jira
    else web.

(** [url] contains [fragment] up to letter case: some run of code units of
    [url] lowers to [fragment]. *)
Definition contains_ci (url fragment : jstr) : Prop :=
  ∃ before run after, url = before ++ run ++ after ∧ toLowerCase run = fragment.

Definition mentions (url : jstr) (fragments : list jstr) : Prop :=
  ∃ f, f ∈ fragments ∧ contains_ci url f.

End Classifier.

(* ===================================================================== *)
(** ** Popup script: title generation *)
(* ===================================================================== *)

Module Popup.

Definition ellipsis : jstr := str "...".

(** The title that [handleTaskAction] derives from [task.text] on "add":
    [text.length > 50 ? text.substring(0, 50).trim() + '...' : text.trim()] *)
Definition generateTitle (text : jstr) : jstr :=
  if decide (50 < length text)%nat
  then trim (substring0 50 text) ++ ellipsis
  else trim text.

End Popup.

(* ===================================================================== *)
(** ** Popup script: waking the backend up *)
(* ===================================================================== *)

Module WakeUp.

(** How an element is displayed: the values the script writes, and [other]
    for any other value. *)
Inductive Display := flex | none | block | other.

(** The promise that [wakeUpBackend] hands to its caller. *)
Inductive Promise := Pending | Fulfilled.

(** Where the control of [wakeUpBackend] is. *)
Inductive Phase :=
| FirstCheck      (* awaiting the first [checkBackendHealth()] *)
| ReturnedEarly   (* [return true] after the first check *)
| Polling.        (* inside [new Promise(...)]: interval and immediate check *)

Record State := mkState {
  phase : Phase;
  wakeupScreen : Display;          (* wakeupScreen.style.display *)
  mainContent : Display;           (* mainContent.style.display *)
  attempt : nat;                   (* let attempt *)
  checkInterval : bool;            (* the interval is set and not cleared *)
  immediate : bool;                (* the "immediate check" is in flight *)
  in_flight : nat;                 (* interval callbacks awaiting their check *)
  connected : bool;                (* [updateStatus(true)] has run *)
  promise : Promise;
  resolve_calls : nat;             (* calls of [resolve(true)] *)
  settlements : nat;               (* Pending -> Fulfilled transitions *)
  woken : bool                     (* some health check has answered [true] *)
}.

(** The call of [wakeUpBackend]; [screen] and [main] are how popup.html and
    its style sheet display the wake-up screen and the main content before
    the script touches them. *)
Definition start (screen main : Display) : State :=
  mkState FirstCheck screen main 0 false false 0 false Pending 0 0 false.

(** What the event loop can run next.  [checkBackendHealth] never rejects:
    each of its calls ends with one boolean. *)
Inductive Event :=
| FirstCheckDone (isAwake : bool)
| Tick                             (* the interval fires *)
| IntervalCheckDone (awake : bool) (* a check started by a tick ends *)
| ImmediateCheckDone (awake : bool).

(** [resolve(true)]: settles a pending promise, does nothing to a settled
    one (the Promise built-in). *)
Definition resolve (s : State) : State :=
  match promise s with
  | Pending =>
      mkState (phase s) (wakeupScreen s) (mainContent s) (attempt s)
              (checkInterval s) (immediate s) (in_flight s) (connected s)
              Fulfilled (S (resolve_calls s)) (S (settlements s)) (woken s)
  | Fulfilled =>
      mkState (phase s) (wakeupScreen s) (mainContent s) (attempt s)
              (checkInterval s) (immediate s) (in_flight s) (connected s)
              Fulfilled (S (resolve_calls s)) (settlements s) (woken s)
  end.

(** The body both success branches share:
    [clearInterval(checkInterval); wakeupScreen.style.display = 'none';
     mainContent.style.display = 'block'; updateStatus(true); resolve(true)] *)
Definition on_awake (s : State) : State :=
  resolve (mkState (phase s) none block (attempt s)
                   false (immediate s) (in_flight s) true
                   (promise s) (resolve_calls s) (settlements s) true).

Definition step (e : Event) (s : State) : option State :=
  match e, phase s with
  | FirstCheckDone true, FirstCheck =>
      (* if (isAwake) return true; *)
      Some (mkState ReturnedEarly (wakeupScreen s) (mainContent s) (attempt s)
                    false false 0 (connected s)
                    Fulfilled (resolve_calls s) (S (settlements s)) true)
  | FirstCheckDone false, FirstCheck =>
      (* show the wake-up screen, set the interval, start the immediate check *)
      Some (mkState Polling flex none (attempt s)
                    true true 0 (connected s)
                    (promise s) (resolve_calls s) (settlements s) (woken s))
  | Tick, Polling =>
      if checkInterval s
      then Some (mkState Polling (wakeupScreen s) (mainContent s) (S (attempt s))
                         true (immediate s) (S (in_flight s)) (connected s)
                         (promise s) (resolve_calls s) (settlements s) (woken s))
      else None
  | IntervalCheckDone awake, Polling =>
      match in_flight s with
      | O => None
      | S n =>
          let s' := mkState Polling (wakeupScreen s) (mainContent s) (attempt s)
                            (checkInterval s) (immediate s) n (connected s)
                            (promise s) (resolve_calls s) (settlements s) (woken s) in
          Some (if awake then on_awake s' else s')
      end
  | ImmediateCheckDone awake, Polling =>
      if immediate s
      then
        let s' := mkState Polling (wakeupScreen s) (mainContent s) (attempt s)
                          (checkInterval s) false (in_flight s) (connected s)
                          (promise s) (resolve_calls s) (settlements s) (woken s) in
        Some (if awake then on_awake s' else s')
      else None
  | _, _ => None
  end.

(** A run of the event loop; [None] when an event is not enabled. *)
Fixpoint run (events : list Event) (s : State) : option State :=
  match events with
  | [] => Some s
  | e :: events' =>
      match step e s with
      | Some s' => run events' s'
      | None => None
      end
  end.

(** The event is a health check that answered [true]. *)
Definition answers_true (e : Event) : bool :=
  match e with
  | FirstCheckDone awake => awake
  | IntervalCheckDone awake => awake
  | ImmediateCheckDone awake => awake
  | Tick => false
  end.

(** The event runs one of the two success branches, which call
    [resolve(true)]. *)
Definition calls_resolve (e : Event) : bool :=
  match e with
  | IntervalCheckDone awake => awake
  | ImmediateCheckDone awake => awake
  | FirstCheckDone _ | Tick => false
  end.

(** The standby configuration that [wakeUpBackend] puts up. *)
Definition waking (s : State) : Prop :=
  wakeupScreen s = flex ∧ mainContent s = none.

(** What holds of every state a run from [start screen main] reaches, by
    phase. *)
Definition invariant (screen main : Display) (s : State) : Prop :=
  match phase s with
  | FirstCheck =>
      woken s = false ∧ promise s = Pending ∧ settlements s = 0 ∧
      checkInterval s = false ∧ wakeupScreen s = screen ∧ mainContent s = main
  | ReturnedEarly =>
      woken s = true ∧ promise s = Fulfilled ∧ settlements s = 1 ∧
      checkInterval s = false ∧ wakeupScreen s = screen ∧ mainContent s = main
  | Polling =>
      if woken s
      then promise s = Fulfilled ∧ settlements s = 1 ∧
           checkInterval s = false ∧ wakeupScreen s = none ∧ mainContent s = block
      else promise s = Pending ∧ settlements s = 0 ∧
           wakeupScreen s = flex ∧ mainContent s = none
  end.

End WakeUp.

(* ===================================================================== *)
(** ** Forge resolvers (donotmiss-forge/src/index.js) *)
(* ===================================================================== *)

Module Forge.

(** *** The task record *)

Inductive Status := pending | sent | declined.

Global Instance Status_eq_dec : EqDecision Status.
Proof. solve_decision. Defined.

Record Task := mkTask {
  id : jstr;
  title : jstr;
  description : jstr;
  source : jstr;
  url : jstr;
  priority : jstr;
  deadline : option jstr;
  status : Status;
  createdAt : jstr;
  createdVia : jstr;
  declinedAt : option jstr;
  jiraKey : option jstr;
  jiraId : option jstr;
  jiraStatus : option jstr;
  jiraStatusCategory : option jstr;
  sentAt : option jstr
}.

(** [task.status = 'declined'; task.declinedAt = now] *)
Definition mark_declined (now : jstr) (t : Task) : Task :=
  mkTask (id t) (title t) (description t) (source t) (url t) (priority t)
         (deadline t) declined (createdAt t) (createdVia t) (Some now)
         (jiraKey t) (jiraId t) (jiraStatus t) (jiraStatusCategory t) (sentAt t).

(** [task.status = 'pending'; delete task.declinedAt] *)
Definition mark_pending (t : Task) : Task :=
  mkTask (id t) (title t) (description t) (source t) (url t) (priority t)
         (deadline t) pending (createdAt t) (createdVia t) None
         (jiraKey t) (jiraId t) (jiraStatus t) (jiraStatusCategory t) (sentAt t).

(** [task.status = 'sent'; task.jiraKey = key; task.jiraId = id;
     task.jiraStatus = 'To Do'; task.jiraStatusCategory = 'new';
     task.sentAt = now] *)
Definition mark_sent (key issueId now : jstr) (t : Task) : Task :=
  mkTask (id t) (title t) (description t) (source t) (url t) (priority t)
         (deadline t) sent (createdAt t) (createdVia t) (declinedAt t)
         (Some key) (Some issueId) (Some (str "To Do")) (Some (str "new"))
         (Some now).

(** *** Outcomes of calls that leave the resolver *)

(** An awaited call either throws (rejects) with a message or returns. *)
Inductive Outcome (A : Type) :=
| Threw (message : jstr)
| Returned (a : A).
Arguments Threw {A} message.
Arguments Returned {A} a.

(** An HTTP response: its status code and what [response.json()] gives. *)
Record Response (B : Type) := mkResponse {
  status_code : Z;
  json : Outcome B
}.
Arguments mkResponse {B} status_code json.
Arguments status_code {B} r.
Arguments json {B} r.

(** [response.ok]: the status is in the range 200-299. *)
Definition ok {B} (r : Response B) : bool :=
  ((200 <=? status_code r) && (status_code r <=? 299))%Z.

(** A task as the Flask backend serialises it. *)
Record BackendTask := mkBackendTask {
  bt_id : jstr;
  bt_title : option jstr;
  bt_text : option jstr;
  bt_description : option jstr;
  bt_source : option jstr;
  bt_url : option jstr;
  bt_priority : option jstr;
  bt_deadline : option jstr;
  bt_metadata_deadline : option jstr;   (* bt.metadata?.deadline *)
  bt_createdAt : option jstr
}.

(** The fields of the issue-creation request that depend on the task. *)
Record IssueBody := mkIssueBody {
  project : jstr;
  summary : option jstr;
  text : option jstr;
  priority_id : jstr;
  labels : list jstr;
  duedate : option jstr;
  assignee : option jstr
}.

(** The body of the tracker's answer to an issue creation. *)
Record IssueResult := mkIssueResult {
  key : jstr;
  issue_id : jstr;
  errorMessages : option (list jstr)
}.

(** The tracker, as [api.asUser().requestJira] reaches it. *)
Record JiraApi := mkJiraApi {
  create_issue : IssueBody → Outcome (Response IssueResult);
  add_comment : jstr → Outcome unit
}.

(** The Flask backend, as [fetch] reaches it; the first argument is the
    base URL, the second the task id where there is one. *)
Record BackendApi := mkBackendApi {
  get_task : jstr → jstr → Outcome (Response BackendTask);
  get_pending : jstr → Outcome (Response (list BackendTask));
  post_mark_sent : jstr → jstr → jstr → Outcome (Response unit);
  post_decline : jstr → jstr → Outcome (Response unit);
  post_restore : jstr → jstr → Outcome (Response unit);
  delete_task : jstr → jstr → Outcome (Response unit)
}.

(** The issue-creation request failed: it threw, or the tracker answered
    with a status outside 200-299. *)
Definition creation_failed (o : Outcome (Response IssueResult)) : Prop :=
  match o with
  | Threw _ => True
  | Returned response => ok response = false
  end.

(** *** Forge storage and the resolver monad *)

(** What a resolver did outside its own variables, in order. *)
Inductive Effect :=
| StorageSetTasks (tasks : list Task)
| JiraCreateIssue (body : IssueBody)
| JiraAddComment (issueKey : jstr)
| FetchTask (taskId : jstr)
| FetchPending
| PostMarkSent (taskId jiraKey : jstr)
| PostDecline (taskId : jstr)
| PostRestore (taskId : jstr)
| DeleteTask (taskId : jstr).

(** The two storage keys the resolvers use, and the effects so far. *)
Record World := mkWorld {
  stored_tasks : option (list Task);       (* storage.get('tasks') *)
  flaskBackendUrl : option jstr;           (* storage.get('flaskBackendUrl') *)
  env_FLASK_BACKEND_URL : option jstr;     (* process.env.FLASK_BACKEND_URL *)
  effects : list Effect
}.

Definition Resolver (A : Type) : Type := World → A * World.

Definition ret {A} (a : A) : Resolver A := λ w, (a, w).

Definition bind {A B} (m : Resolver A) (k : A → Resolver B) : Resolver B :=
  λ w, let '(a, w') := m w in k a w'.

Declare Scope resolver_scope.
Delimit Scope resolver_scope with resolver.
Notation "'let!' x := m 'in' k" := (bind m (λ x, k))
  (at level 10, x name, m at level 100, k at level 200) : resolver_scope.
Notation "m ;;! k" := (bind m (λ _, k))
  (at level 100, k at level 200, right associativity) : resolver_scope.
Local Open Scope resolver_scope.

Definition emit (e : Effect) : Resolver unit :=
  λ w, (tt, mkWorld (stored_tasks w) (flaskBackendUrl w)
                    (env_FLASK_BACKEND_URL w) (effects w ++ [e])).

(** [storage.get('tasks') || []] *)
Definition tasks_of (w : World) : list Task := default [] (stored_tasks w).

(** [await storage.get('tasks') || []] *)
Definition get_tasks : Resolver (list Task) := λ w, (tasks_of w, w).

(** [await storage.set('tasks', tasks)] *)
Definition set_tasks (tasks : list Task) : Resolver unit :=
  λ w, (tt, mkWorld (Some tasks) (flaskBackendUrl w)
                    (env_FLASK_BACKEND_URL w)
                    (effects w ++ [StorageSetTasks tasks])).

(** [process.env.FLASK_BACKEND_URL || 'https://donotmiss-backend.onrender.com'] *)
Definition FLASK_BACKEND_URL (w : World) : jstr :=
  or_else (env_FLASK_BACKEND_URL w) (str "https://donotmiss-backend.onrender.com").

(** [await storage.get('flaskBackendUrl') || FLASK_BACKEND_URL] *)
Definition get_backendUrl : Resolver jstr :=
  λ w, (or_else (flaskBackendUrl w) (FLASK_BACKEND_URL w), w).

(** *** What a resolver answers *)

Record Reply := mkReply {
  success : bool;
  error : option jstr;
  reply_task : option Task;
  reply_jiraKey : option jstr;
  added : option nat;
  total : option nat
}.

Definition succeeded : Reply := mkReply true None None None None None.
Definition failed (message : jstr) : Reply :=
  mkReply false (Some message) None None None None.
Definition flagged (b : bool) : Reply := mkReply b None None None None None.

(** *** Resolvers of the storage variant *)

(** The first task with the given id, with its index. *)
Definition findTask (taskId : jstr) (tasks : list Task) : option (nat * Task) :=
  list_find (λ t, id t = taskId) tasks.

(** [tasks.findIndex(t => t.id === taskId)], [None] for [-1]. *)
Definition findIndex (taskId : jstr) (tasks : list Task) : option nat :=
  fst <$> findTask taskId tasks.

Definition status_found (found : option (nat * Task)) : option Status :=
  (λ it : nat * Task, status it.2) <$> found.

(** The status of the stored task with the given id (of the first one, the
    one [findIndex] lands on, if several have it); [None] when no task has
    it. *)
Definition status_of (taskId : jstr) (w : World) : option Status :=
  status_found (findTask taskId (tasks_of w)).

(** [deleteTask] *)
Definition deleteTask (taskId : jstr) : Resolver Reply :=
  let! tasks := get_tasks in
  let filtered := filter (λ t, id t ≠ taskId) tasks in
  set_tasks filtered ;;!
  ret succeeded.

(** [declineTask]; [now] is [new Date().toISOString()]. *)
Definition declineTask (taskId now : jstr) : Resolver Reply :=
  let! tasks := get_tasks in
  match findIndex taskId tasks with
  | None => ret (failed (str "Task not found"))
  | Some taskIndex =>
      let tasks' := alter (mark_declined now) taskIndex tasks in
      set_tasks tasks' ;;!
      ret (mkReply true None (tasks' !! taskIndex) None None None)
  end.

(** [restoreTask] *)
Definition restoreTask (taskId : jstr) : Resolver Reply :=
  let! tasks := get_tasks in
  match findIndex taskId tasks with
  | None => ret (failed (str "Task not found"))
  | Some taskIndex =>
      let tasks' := alter mark_pending taskIndex tasks in
      set_tasks tasks' ;;!
      ret (mkReply true None (tasks' !! taskIndex) None None None)
  end.

Definition PRIORITY_MAP : gmap jstr jstr :=
  list_to_map [(str "highest", str "1"); (str "high", str "2");
               (str "medium", str "3"); (str "low", str "4")].

(** [PRIORITY_MAP[priority] || '3'] *)
Definition priority_of (p : option jstr) : jstr :=
  or_else (p ≫= λ p', PRIORITY_MAP !! p') (str "3").

(** [a.join(', ')] *)
Fixpoint join (a : list jstr) : jstr :=
  match a with
  | [] => []
  | [x] => x
  | x :: a' => x ++ str ", " ++ join a'
  end.

(** [result.errorMessages?.join(', ') || 'Failed to create issue'] *)
Definition creation_error (result : IssueResult) : jstr :=
  or_else (join <$> errorMessages result) (str "Failed to create issue").

(** The issue body the storage variant builds from a stored task. *)
Definition issueBody_of_task (projectKey : jstr) (assigneeId : option jstr)
    (task : Task) : IssueBody :=
  mkIssueBody projectKey (Some (title task))
              (Some (or_else (Some (description task)) (title task)))
              (priority_of (Some (priority task)))
              [str "donotmiss"; str "source-" ++ source task]
              (or_null (deadline task))
              (or_null assigneeId).

(** [sendToJira] of the storage variant.  Everything from the construction
    of the issue body on sits in one [try]; its [catch] answers
    [{ success: false, error: error.message }]. *)
Definition sendToJira (jira : JiraApi) (projectKey : jstr)
    (taskId : jstr) (assigneeId : option jstr) (now : jstr) : Resolver Reply :=
  let! tasks := get_tasks in
  match findTask taskId tasks with
  | Some (taskIndex, task) =>       (* taskIndex !== -1, task = tasks[taskIndex] *)
      let issueBody := issueBody_of_task projectKey assigneeId task in
      emit (JiraCreateIssue issueBody) ;;!
      match create_issue jira issueBody with
      | Threw message => ret (failed message)
      | Returned response =>
          match json response with
          | Threw message => ret (failed message)
          | Returned result =>
              if negb (ok response) then ret (failed (creation_error result))
              else
                emit (JiraAddComment (key result)) ;;!
                match add_comment jira (key result) with
                | Threw message => ret (failed message)
                | Returned _ =>
                    let tasks' :=
                      alter (mark_sent (key result) (issue_id result) now)
                            taskIndex tasks in
                    set_tasks tasks' ;;!
                    ret (mkReply true None (tasks' !! taskIndex)
                                 (Some (key result)) None None)
                end
          end
      end
  | None => ret (failed (str "Task not found"))
  end.

(** The record [syncFromBackend] builds for a backend task:
    [{ id: bt.id, title: bt.title || bt.text?.substring(0, 80) || 'Untitled',
       description: bt.description || bt.text || '', source: bt.source || 'web',
       url: bt.url || '', priority: bt.priority || 'medium',
       deadline: bt.metadata?.deadline || null, status: 'pending',
       createdAt: bt.createdAt || now, createdVia: 'donotmiss-flask' }] *)
Definition localTask (now : jstr) (bt : BackendTask) : Task :=
  mkTask (bt_id bt)
         (or_else (or_opt (bt_title bt) (substring0 80 <$> bt_text bt))
                  (str "Untitled"))
         (or_else (or_opt (bt_description bt) (bt_text bt)) [])
         (or_else (bt_source bt) (str "web"))
         (or_else (bt_url bt) [])
         (or_else (bt_priority bt) (str "medium"))
         (or_null (bt_metadata_deadline bt))
         pending
         (or_else (bt_createdAt bt) now)
         (str "donotmiss-flask")
         None None None None None None.

(** One turn of the loop [for (const bt of backendTasks)]: the state is
    [existingTasks] and [addedCount]; [existingIds] is the set built before
    the loop. *)
Definition sync_one (existingIds : gset jstr) (now : jstr)
    (state : list Task * nat) (bt : BackendTask) : list Task * nat :=
  if decide (bt_id bt ∈ existingIds) then state
  else (localTask now bt :: state.1, S state.2).

(** [`Backend returned ${response.status}`] *)
Definition backend_returned (code : Z) : jstr :=
  str "Backend returned " ++
  str (NilZero.string_of_int (Z.to_int code)).

(** [syncFromBackend] *)
Definition syncFromBackend (backend : BackendApi) (now : jstr) : Resolver Reply :=
  let! backendUrl := get_backendUrl in
  emit FetchPending ;;!
  match get_pending backend backendUrl with
  | Threw message => ret (failed message)
  | Returned response =>
      if negb (ok response) then ret (failed (backend_returned (status_code response)))
      else
        match json response with
        | Threw message => ret (failed message)
        | Returned backendTasks =>
            let! existingTasks := get_tasks in
            let existingIds : gset jstr := list_to_set (id <$> existingTasks) in
            let final :=
              foldl (sync_one existingIds now) (existingTasks, O) backendTasks in
            set_tasks final.1 ;;!
            ret (mkReply true None None None (Some final.2)
                         (Some (length final.1)))
        end
  end.

(** [deleteFromBackend] *)
Definition deleteFromBackend (backend : BackendApi) (taskId : jstr)
    : Resolver Reply :=
  let! backendUrl := get_backendUrl in
  emit (DeleteTask taskId) ;;!
  match delete_task backend backendUrl taskId with
  | Threw message => ret (failed message)
  | Returned response =>
      ret (flagged (ok response || bool_decide (status_code response = 404%Z)))
  end.

End Forge.

(* ===================================================================== *)
(** ** Forge resolvers, backend variant *)
(* ===================================================================== *)

(** The first [index.js]: the task list lives in the Flask backend and the
    resolvers only forward to it. *)
Module ForgeBackend.

Import Forge.
Local Open Scope resolver_scope.

(** The issue body built from the task the backend returned. *)
Definition issueBody_of_task (projectKey : jstr) (assigneeId : option jstr)
    (task : BackendTask) : IssueBody :=
  mkIssueBody projectKey (bt_title task)
              (or_opt (bt_description task) (bt_title task))
              (priority_of (bt_priority task))
              [str "donotmiss"; str "source-" ++ or_else (bt_source task) (str "web")]
              (or_null (bt_deadline task))
              (or_null assigneeId).

(** [sendToJira]: fetch the task, create the issue, then mark the task as
    sent in the backend (the [jiraUrl] of that request is made of the site
    URL and the issue key).  The fetch has a [try] of its own; everything
    from the issue body on sits in a second one. *)
Definition sendToJira (backend : BackendApi) (jira : JiraApi)
    (projectKey taskId : jstr) (assigneeId : option jstr) : Resolver Reply :=
  let! backendUrl := get_backendUrl in
  emit (FetchTask taskId) ;;!
  match get_task backend backendUrl taskId with
  | Threw _ => ret (failed (str "Failed to fetch task"))
  | Returned taskResponse =>
      if negb (ok taskResponse) then ret (failed (str "Task not found"))
      else
        match json taskResponse with
        | Threw _ => ret (failed (str "Failed to fetch task"))
        | Returned task =>
            let issueBody := issueBody_of_task projectKey assigneeId task in
            emit (JiraCreateIssue issueBody) ;;!
            match create_issue jira issueBody with
            | Threw message => ret (failed message)
            | Returned response =>
                match json response with
                | Threw message => ret (failed message)
                | Returned result =>
                    if negb (ok response)
                    then ret (failed (creation_error result))
                    else
                      emit (PostMarkSent taskId (key result)) ;;!
                      match post_mark_sent backend backendUrl taskId (key result) with
                      | Threw message => ret (failed message)
                      | Returned _ =>
                          ret (mkReply true None None (Some (key result)) None None)
                      end
                end
            end
        end
  end.

(** [declineTask]: [{ success: response.ok }] *)
Definition declineTask (backend : BackendApi) (taskId : jstr) : Resolver Reply :=
  let! backendUrl := get_backendUrl in
  emit (PostDecline taskId) ;;!
  match post_decline backend backendUrl taskId with
  | Threw message => ret (failed message)
  | Returned response => ret (flagged (ok response))
  end.

(** [restoreTask]: [{ success: response.ok }] *)
Definition restoreTask (backend : BackendApi) (taskId : jstr) : Resolver Reply :=
  let! backendUrl := get_backendUrl in
  emit (PostRestore taskId) ;;!
  match post_restore backend backendUrl taskId with
  | Threw message => ret (failed message)
  | Returned response => ret (flagged (ok response))
  end.

(** [deleteTask]: [{ success: response.ok || response.status === 404 }] *)
Definition deleteTask (backend : BackendApi) (taskId : jstr) : Resolver Reply :=
  let! backendUrl := get_backendUrl in
  emit (DeleteTask taskId) ;;!
  match delete_task backend backendUrl taskId with
  | Threw message => ret (failed message)
  | Returned response =>
      ret (flagged (ok response || bool_decide (status_code response = 404%Z)))
  end.

End ForgeBackend.

(* ===================================================================== *)
(** ** Review surface: the actions of a task card *)
(* ===================================================================== *)

Module Dashboard.

Import Forge.

(** The buttons of the [task-actions] block. *)
Inductive Action := Decline | SendToJira | OpenIssue | Delete | Restore.

Global Instance Action_eq_dec : EqDecision Action.
Proof. solve_decision. Defined.

(** Which buttons the card of a task shows, by [task.status]. *)
Definition task_actions (s : Status) : list Action :=
  match s with
  | pending => [Decline; SendToJira]
  | sent => [OpenIssue]
  | declined => [Delete; Restore]
  end.

(** An invocation of one of the four resolvers that touch a task's
    status, with everything the call depends on. *)
Inductive Op :=
| InvokeSendToJira (jira : JiraApi) (projectKey taskId : jstr)
                   (assigneeId : option jstr) (now : jstr)
| InvokeDeclineTask (taskId now : jstr)
| InvokeRestoreTask (taskId : jstr)
| InvokeDeleteTask (taskId : jstr).

Definition invoke (op : Op) : Resolver Reply :=
  match op with
  | InvokeSendToJira jira projectKey taskId assigneeId now =>
      sendToJira jira projectKey taskId assigneeId now
  | InvokeDeclineTask taskId now => declineTask taskId now
  | InvokeRestoreTask taskId => restoreTask taskId
  | InvokeDeleteTask taskId => deleteTask taskId
  end.

(** The stored state after the call. *)
Definition after (op : Op) (w : World) : World := (invoke op w).2.

Definition target (op : Op) : jstr :=
  match op with
  | InvokeSendToJira _ _ taskId _ _ => taskId
  | InvokeDeclineTask taskId _ => taskId
  | InvokeRestoreTask taskId => taskId
  | InvokeDeleteTask taskId => taskId
  end.

(** The button that leads to the call: Decline, Restore and Delete make
    it from their handler, Send to Jira opens the assign box whose options
    make it. *)
Definition button (op : Op) : Action :=
  match op with
  | InvokeSendToJira _ _ _ _ _ => SendToJira
  | InvokeDeclineTask _ _ => Decline
  | InvokeRestoreTask _ => Restore
  | InvokeDeleteTask _ => Delete
  end.

(** The status a successful call leaves its task with; [None] for
    removal. *)
Definition written (op : Op) : option Status :=
  match op with
  | InvokeSendToJira _ _ _ _ _ => Some sent
  | InvokeDeclineTask _ _ => Some declined
  | InvokeRestoreTask _ => Some pending
  | InvokeDeleteTask _ => None
  end.

(** The changes of a task's status that the lifecycle allows. *)
Inductive lifecycle : option Status → option Status → Prop :=
| unchanged s : lifecycle s s
| pending_sent : lifecycle (Some pending) (Some sent)
| pending_declined : lifecycle (Some pending) (Some declined)
| declined_pending : lifecycle (Some declined) (Some pending)
| removed s : lifecycle (Some s) None.

(** The card of the targeted task, as rendered from the stored list, shows
    the button of the call. *)
Definition offered (op : Op) (w : World) : Prop :=
  ∃ t, t ∈ tasks_of w ∧ id t = target op ∧ button op ∈ task_actions (status t).

(** Task ids identify the stored records. *)
Definition unique_ids (w : World) : Prop := NoDup (id <$> tasks_of w).

(** The calls [ops], made one after the other from [w], each through a
    button its task's card shows at that moment, end in [w']. *)
Inductive clicked : World → list Op → World → Prop :=
| clicked_nil w : clicked w [] w
| clicked_cons w op ops w' :
    offered op w → clicked (after op w) ops w' → clicked w (op :: ops) w'.

(** Refutes a membership [button ∈ [b1; ...; bn]] in which the button is
    none of the listed ones. *)
Ltac absent_button H :=
  repeat (apply elem_of_cons in H as [H | H]; [discriminate H |]);
  by apply elem_of_nil in H.

End Dashboard.

(* ===================================================================== *)
(** ** Sample data *)
(* ===================================================================== *)

Module Samples.

Import Forge.

(** A stored task shaped like the one of the README. *)
Definition task (taskId : string) (s : Status) : Task :=
  mkTask (str taskId) (str "Review budget proposal")
         (str "Full task description...") (str "email")
         (str "https://mail.google.com/") (str "high") None s
         (str "2024-05-01T09:00:00.000Z") (str "donotmiss")
         None None None None None None.

(** A task as the backend lists it, with only [text] filled in. *)
Definition backendTask (taskId text : string) : BackendTask :=
  mkBackendTask (str taskId) None (Some (str text)) None None None None
                None None None.

Definition world (tasks : list Task) : World := mkWorld (Some tasks) None None [].

(** A tracker that creates every issue as DNM-7. *)
Definition jira_accepts : JiraApi :=
  mkJiraApi
    (λ _, Returned (mkResponse 201
       (Returned (mkIssueResult (str "DNM-7") (str "10007") None))))
    (λ _, Returned tt).

(** A tracker that answers every issue creation with 400. *)
Definition jira_rejects : JiraApi :=
  mkJiraApi
    (λ _, Returned (mkResponse 400
       (Returned (mkIssueResult [] [] (Some [str "priority is invalid"])))))
    (λ _, Returned tt).

(** A tracker that cannot be reached. *)
Definition jira_unreachable : JiraApi :=
  mkJiraApi (λ _, Threw (str "network error")) (λ _, Threw (str "network error")).

(** A backend that lists [pending], knows the task [known] and answers
    every DELETE with [delete_status]. *)
Definition backend (pending : list BackendTask) (known : BackendTask)
    (delete_status : Z) : BackendApi :=
  mkBackendApi
    (λ _ _, Returned (mkResponse 200 (Returned known)))
    (λ _, Returned (mkResponse 200 (Returned pending)))
    (λ _ _ _, Returned (mkResponse 200 (Returned tt)))
    (λ _ _, Returned (mkResponse 200 (Returned tt)))
    (λ _ _, Returned (mkResponse 200 (Returned tt)))
    (λ _ _, Returned (mkResponse delete_status (Returned tt))).

End Samples.

(* ===================================================================== *)
(** ** Forge resolvers of the storage variant: adding, clearing, settings *)
(* ===================================================================== *)

Module ForgeMore.

Import Forge.
Local Open Scope resolver_scope.

(** [`${n}`] for an integer [n]. *)
Definition decimal (n : Z) : jstr := str (NilZero.string_of_int (Z.to_int n)).

(** The payload of [addTask], as the capture surfaces fill it in. *)
Record NewTask := mkNewTask {
  new_title : jstr;
  new_description : jstr;
  new_source : jstr;
  new_url : jstr;
  new_priority : option jstr;
  new_deadline : option jstr
}.

(** The record [addTask] builds; [nowMs] is [Date.now()], [nowIso] is
    [new Date().toISOString()]. *)
Definition newTask (payload : NewTask) (nowMs : Z) (nowIso : jstr) : Task :=
  mkTask (str "task-" ++ decimal nowMs)
         (new_title payload) (new_description payload)
         (new_source payload) (new_url payload)
         (or_else (new_priority payload) (str "medium"))
         (or_null (new_deadline payload))
         pending nowIso (str "donotmiss")
         None None None None None None.

(** [addTask]: [tasks.unshift(newTask); await storage.set('tasks', tasks)] *)
Definition addTask (payload : NewTask) (nowMs : Z) (nowIso : jstr)
    : Resolver Reply :=
  let! tasks := get_tasks in
  let task := newTask payload nowMs nowIso in
  set_tasks (task :: tasks) ;;!
  ret (mkReply true None (Some task) None None None).

(** [clearTasks]: [await storage.set('tasks', [])] *)
Definition clearTasks : Resolver Reply :=
  set_tasks [] ;;!
  ret succeeded.

(** [getBackendUrl]: the [url] of its answer. *)
Definition getBackendUrl : Resolver jstr := get_backendUrl.

(** [setBackendUrl]: [await storage.set('flaskBackendUrl', payload.url)].
    The log of [World] follows the task list and the requests only. *)
Definition setBackendUrl (url : jstr) : Resolver Reply :=
  λ w, (succeeded,
        mkWorld (stored_tasks w) (Some url) (env_FLASK_BACKEND_URL w) (effects w)).

End ForgeMore.

(* ===================================================================== *)
(** ** Forge resolvers, backend variant: mirroring the tracker's status *)
(* ===================================================================== *)

Module Mirror.

Import Forge.
Local Open Scope resolver_scope.

(** A task of the full listing [GET /api/tasks]: the fields of a backend
    task and the ones [syncTasks] reads or writes. *)
Record ListedTask := mkListedTask {
  fields : BackendTask;
  listed_status : option jstr;
  listed_jiraKey : option jstr;
  listed_jiraStatus : option jstr
}.

(** [issue.fields.status?.name] of the tracker's answer for one issue.  An
    answer without [fields] makes the access throw: that is a thrown
    [json] here. *)
Record Issue := mkIssue {
  status_name : option jstr
}.

(** What [syncTasks] answers. *)
Inductive SyncReply :=
| SyncFailed (error : jstr)
| Synced (tasks : list ListedTask).

(** [task.jiraStatus = name] *)
Definition with_jiraStatus (name : jstr) (task : ListedTask) : ListedTask :=
  mkListedTask (fields task) (listed_status task) (listed_jiraKey task) (Some name).

(** The body of the loop [for (const task of tasks)]: a sent task with an
    issue key is looked up in the tracker inside a [try] whose [catch]
    ignores the error. *)
Definition mirror (get_issue : jstr → Outcome (Response Issue))
    (task : ListedTask) : ListedTask :=
  match listed_status task, listed_jiraKey task with
  | Some s, Some (c :: k) =>
      if bool_decide (s = str "sent") then
        match get_issue (c :: k) with
        | Threw _ => task
        | Returned jiraResponse =>
            if ok jiraResponse then
              match json jiraResponse with
              | Threw _ => task
              | Returned issue =>
                  with_jiraStatus (or_else (status_name issue) (str "Unknown")) task
              end
            else task
        end
      else task
  | _, _ => task
  end.

(** [syncTasks] *)
Definition syncTasks (get_all : jstr → Outcome (Response (list ListedTask)))
    (get_issue : jstr → Outcome (Response Issue)) : Resolver SyncReply :=
  let! backendUrl := get_backendUrl in
  match get_all backendUrl with
  | Threw message => ret (SyncFailed message)
  | Returned response =>
      if negb (ok response) then ret (SyncFailed (str "Failed to fetch tasks"))
      else
        match json response with
        | Threw message => ret (SyncFailed message)
        | Returned tasks => ret (Synced (mirror get_issue <$> tasks))
        end
  end.

End Mirror.

(* ===================================================================== *)
(** ** Extension background script: capture and submission *)
(* ===================================================================== *)

Module Extension.

Import Forge.

(** The draft built on a context-menu click. *)
Record TaskData := mkTaskData {
  data_text : jstr;
  data_source : Classifier.Source;
  data_url : option jstr;
  data_title : option jstr
}.

(** What the click handler does outside its own variables, in order. *)
Inductive CaptureEffect :=
| Ping                                  (* tabs.sendMessage { action: 'ping' } *)
| ShowCaptureModal (data : TaskData)    (* tabs.sendMessage showCaptureModal *)
| StoreCaptureTask (data : TaskData)    (* storage.local.set({ captureTask }) *)
| CreateWindow (left : Z).              (* windows.create popup/capture.html *)

(** [contentScriptReady]: [response && response.pong] of the ping, [false]
    when the ping throws.  The answer is [None] when there is none or it
    has no [pong]. *)
Definition contentScriptReady (ping : Outcome (option bool)) : bool :=
  match ping with
  | Returned (Some true) => true
  | _ => false
  end.

(** [Math.round((width - 400) / 2)] for an integer width: halves round up. *)
Definition centred (width : Z) : Z := ((width - 400 + 1) / 2)%Z.

(** The listener of [contextMenus.onClicked].  [screen_width] is
    [screen.width], absent where the script runs without a [screen] global
    (the access then throws). *)
Definition onClicked (menuItemId : jstr) (selectionText tab_url tab_title : option jstr)
    (ping : Outcome (option bool)) (screen_width : option Z)
    : Outcome unit * list CaptureEffect :=
  if bool_decide (menuItemId = str "donotmiss-capture") && truthy selectionText
  then
    let taskData :=
      mkTaskData (trim (default [] selectionText))
                 (Classifier.detectSource tab_url) tab_url tab_title in
    if contentScriptReady ping
    then (Returned tt, [Ping; ShowCaptureModal taskData])
    else
      match screen_width with
      | Some width =>
          (Returned tt,
           [Ping; StoreCaptureTask taskData; CreateWindow (centred width)])
      | None =>
          (Threw (str "screen is not defined"), [Ping; StoreCaptureTask taskData])
      end
  else (Returned tt, []).

(** The task of a [submitTask] message. *)
Record Submission := mkSubmission {
  sub_title : option jstr;
  sub_description : option jstr;
  sub_deadline : option jstr;
  sub_priority : option jstr;
  sub_source : option jstr;
  sub_url : option jstr;
  sub_timestamp : option jstr;
  sub_userApproved : option bool
}.

(** The body of [POST /tasks]. *)
Record Payload := mkPayload {
  pl_text : option jstr;
  pl_title : option jstr;
  pl_description : option jstr;
  pl_source : jstr;
  pl_url : option jstr;
  pl_priority : jstr;
  pl_deadline : option jstr;
  pl_createdAt : jstr;
  pl_userApproved : option bool;
  pl_capturedVia : jstr
}.

(** The body of the backend's answer. *)
Record Created := mkCreated {
  created_id : option jstr;
  created_status : option jstr;
  created_error : option jstr
}.

(** What [submitTaskToBackend] returns. *)
Record Saved := mkSaved {
  saved_id : option jstr;
  saved_status : option jstr;
  saved_message : jstr
}.

(** The payload mapped from the extension's task; [now] is
    [new Date().toISOString()]. *)
Definition payload_of (task : Submission) (now : jstr) : Payload :=
  mkPayload (or_opt (sub_description task) (sub_title task))
            (sub_title task) (sub_description task)
            (or_else (sub_source task) (str "web"))
            (sub_url task)
            (or_else (sub_priority task) (str "medium"))
            (or_null (sub_deadline task))
            (or_else (sub_timestamp task) now)
            (sub_userApproved task)
            (str "extension").

(** [submitTaskToBackend]; a thrown [Error] is its message. *)
Definition submitTaskToBackend (post : Payload → Outcome (Response Created))
    (task : Submission) (now : jstr) : Outcome Saved :=
  match post (payload_of task now) with
  | Threw message => Threw message
  | Returned response =>
      match json response with
      | Threw message => Threw message
      | Returned result =>
          if negb (ok response)
          then Threw (or_else (created_error result)
                        (str "Backend error: " ++ ForgeMore.decimal (status_code response)))
          else Returned (mkSaved (created_id result) (created_status result)
                           (str "Task saved! Open Jira to sync and create issue."))
      end
  end.

(** What the message listener passes to [sendResponse]. *)
Record Answer := mkAnswer {
  answer_success : bool;
  answer_result : option Saved;
  answer_error : option jstr
}.

(** The listener of [runtime.onMessage] for [action === 'submitTask']. *)
Definition onSubmitTask (post : Payload → Outcome (Response Created))
    (task : Submission) (now : jstr) : Answer :=
  match submitTaskToBackend post task now with
  | Returned result => mkAnswer true (Some result) None
  | Threw message => mkAnswer false None (Some message)
  end.

End Extension.

(* ===================================================================== *)
(** ** Popup script: the task list and its buttons *)
(* ===================================================================== *)

Module PopupList.

Import Forge Extension.

(** A task of the popup's list; [task_id] is the id when it is a string. *)
Record Shown := mkShown {
  task_id : option jstr;
  task_text : option jstr;
  task_source : option jstr;
  task_url : option jstr;
  detectedAt : option jstr
}.

(** [{ id: t.id, text: t.description || t.text, source: t.source,
       url: t.url, detectedAt: t.createdAt }] *)
Definition of_backend (t : BackendTask) : Shown :=
  mkShown (Some (bt_id t)) (or_opt (bt_description t) (bt_text t))
          (bt_source t) (bt_url t) (bt_createdAt t).

(** The tasks [loadTasks] renders: those of the backend, and the locally
    stored [pendingTasks] when the backend gave none. *)
Definition loadTasks (fetched : Outcome (Response (list BackendTask)))
    (pendingTasks : option (list Shown)) : list Shown :=
  let tasks :=
    match fetched with
    | Returned response =>
        if ok response then
          match json response with
          | Returned backendTasks => of_backend <$> backendTasks
          | Threw _ => []
          end
        else []
    | Threw _ => []
    end in
  match tasks with
  | [] => default [] pendingTasks
  | _ :: _ => tasks
  end.

(** What [handleTaskAction] does outside its own variables, in order. *)
Inductive PopupEffect :=
| SendSubmitTask (task : Submission)    (* runtime.sendMessage submitTask *)
| FetchDelete (taskId : jstr)           (* fetch DELETE /tasks/<id> *)
| SetPendingTasks (tasks : list Shown). (* storage.local.set({ pendingTasks }) *)

Record PopupState := mkPopupState {
  pendingTasks : option (list Shown);   (* storage.local.get('pendingTasks') *)
  popup_log : list PopupEffect
}.

(** [tasks.splice(index, 1); await storage.local.set({ pendingTasks: tasks })] *)
Definition remove_and_store (index : nat) (tasks : list Shown)
    (log : list PopupEffect) : Outcome unit * PopupState :=
  let tasks' := delete index tasks in
  (Returned tt, mkPopupState (Some tasks') (log ++ [SetPendingTasks tasks'])).

(** The message the "add" branch sends. *)
Definition submission_of (task : Shown) (text now : jstr) : Submission :=
  mkSubmission (Some (Popup.generateTitle text)) (Some text) None
               (Some (str "medium")) (task_source task) (task_url task)
               (Some now) (Some true).

(** [handleTaskAction] for a click on the button with [data-action] and
    [data-index].  [send] is the answer's [success] to the message; it
    throws when the message cannot be delivered.  Reading [text] of a
    missing task, or [length] of a missing text, throws too. *)
Definition handleTaskAction (action : jstr) (index : nat) (now : jstr)
    (send : Submission → Outcome bool) (st : PopupState)
    : Outcome unit * PopupState :=
  let tasks := default [] (pendingTasks st) in
  let task := tasks !! index in
  if bool_decide (action = str "add") then
    match task, task ≫= task_text with
    | Some task, Some text =>
        let message := submission_of task text now in
        let log := popup_log st ++ [SendSubmitTask message] in
        match send message with
        | Threw error => (Threw error, mkPopupState (pendingTasks st) log)
        | Returned _ => remove_and_store index tasks log
        end
    | _, _ => (Threw (str "TypeError"), st)
    end
  else
    match task ≫= task_id with
    | Some (c :: taskId) =>
        if startsWith (c :: taskId) (str "task-")
        then remove_and_store index tasks
               (popup_log st ++ [FetchDelete (c :: taskId)])
        else remove_and_store index tasks (popup_log st)
    | _ => remove_and_store index tasks (popup_log st)
    end.

End PopupList.

(* ===================================================================== *)
(** ** Review surface: filters *)
(* ===================================================================== *)

Module Review.

Import Forge.
Local Open Scope resolver_scope.

(** The predicate of [filteredTasks]; [view] is the state [filter]. *)
Definition shows (view : jstr) (task : Task) : bool :=
  if bool_decide (view = str "all")
  then negb (bool_decide (status task = declined))
  else if bool_decide (view = str "pending")
  then bool_decide (status task = pending)
  else if bool_decide (view = str "sent")
  then bool_decide (status task = sent)
  else if bool_decide (view = str "declined")
  then bool_decide (status task = declined)
  else true.

Definition filteredTasks (view : jstr) (tasks : list Task) : list Task :=
  filter (λ task, shows view task = true) tasks.

Definition pendingCount (tasks : list Task) : nat :=
  length (filter (λ t, status t = pending) tasks).

Definition sentCount (tasks : list Task) : nat :=
  length (filter (λ t, status t = sent) tasks).

Definition declinedCount (tasks : list Task) : nat :=
  length (filter (λ t, status t = declined) tasks).

(** The count on the "All" button. *)
Definition allCount (tasks : list Task) : nat :=
  length (filter (λ t, status t ≠ declined) tasks).

End Review.

(* ===================================================================== *)
(** * Properties *)
(* ===================================================================== *)

(** ** Strings *)

Section StringFacts.

Implicit Types s p : jstr.

Lemma startsWith_prefix s p : startsWith s p = true ↔ ∃ rest, s = p ++ rest.
Proof.
  revert s. induction p as [|a p IH]; intros s; simpl.
  - split; [eauto | done].
  - destruct s as [|b s].
    + split; [done | intros [rest Hrest]; discriminate].
    + rewrite andb_true_iff, N.eqb_eq, IH. split.
      * intros [-> [rest ->]]. by exists rest.
      * intros [rest Hrest]. injection Hrest as -> ->. eauto.
Qed.

Lemma includes_infix s p : includes s p = true ↔ ∃ before after, s = before ++ p ++ after.
Proof.
  induction s as [|b s IH]; simpl; rewrite orb_true_iff, startsWith_prefix.
  - split.
    + intros [[rest Hrest] | ?]; [|done]. by exists [], rest.
    + intros (before & after & Heq). left.
      destruct before; [by exists after | discriminate].
  - rewrite IH. split.
    + intros [[rest Hrest] | (before & after & ->)].
      * by exists [], rest.
      * by exists (b :: before), after.
    + intros (before & after & Heq). destruct before as [|c before].
      * left. by exists after.
      * right. injection Heq as -> ->. by exists before, after.
Qed.

Lemma trimStart_length s : length (trimStart s) ≤ length s.
Proof.
  induction s as [|c s IH]; simpl; [done|].
  destruct (is_white_space c); simpl; lia.
Qed.

Lemma trim_length s : length (trim s) ≤ length s.
Proof.
  unfold trim, trimEnd. rewrite length_reverse.
  etrans; [apply trimStart_length|]. rewrite length_reverse.
  apply trimStart_length.
Qed.

Lemma trimStart_tight s :
  (∀ c, head s = Some c → is_white_space c = false) → trimStart s = s.
Proof.
  destruct s as [|c s]; simpl; [done|]. intros H. by rewrite (H c).
Qed.

Lemma trim_tight s : tight s → trim s = s.
Proof.
  intros [Hhead Hlast]. unfold trim, trimEnd.
  rewrite (trimStart_tight s Hhead), trimStart_tight.
  - apply reverse_involutive.
  - intros c Hc. apply Hlast. by rewrite <- head_reverse.
Qed.

End StringFacts.

(** ** Source classifier *)

Section ClassifierFacts.

Import Classifier.

Lemma contains_ci_includes url fragment :
  contains_ci url fragment ↔ includes (toLowerCase url) fragment = true.
Proof.
  rewrite includes_infix. unfold contains_ci, toLowerCase. split.
  - intros (before & run & after & -> & <-).
    exists (lower_unit <$> before), (lower_unit <$> after).
    by rewrite !fmap_app.
  - intros (before & after & Heq).
    apply fmap_app_inv in Heq as (l1 & l23 & -> & Heq & ->).
    symmetry in Heq.
    apply fmap_app_inv in Heq as (l2 & l3 & -> & -> & ->).
    by exists l1, l2, l3.
Qed.

Lemma mentions_includes_any url fragments :
  mentions url fragments ↔ includes_any (toLowerCase url) fragments = true.
Proof.
  unfold mentions, includes_any. rewrite existsb_exists. split.
  - intros (f & Hin & Hf). exists f.
    by rewrite <- list_elem_of_In, <- contains_ci_includes.
  - intros (f & Hin & Hf). exists f.
    by rewrite list_elem_of_In, contains_ci_includes.
Qed.

Lemma not_mentions_includes_any url fragments :
  ¬ mentions url fragments ↔ includes_any (toLowerCase url) fragments = false.
Proof. rewrite mentions_includes_any. apply not_true_iff_false. Qed.

(** The empty URL contains none of the fragments. *)
Lemma empty_mentions_nothing fragments :
  Forall (λ f, f ≠ []) fragments → ¬ mentions [] fragments.
Proof.
  intros Hne (f & Hin & before & run & after & Heq & Hrun).
  rewrite Forall_forall in Hne. apply (Hne f Hin).
  symmetry in Heq. apply app_eq_nil in Heq as [_ Heq].
  apply app_eq_nil in Heq as [-> _]. by rewrite <- Hrun.
Qed.

Lemma detectSource_unfold url :
  url ≠ [] →
  detectSource (Some url) =
    if includes_any (toLowerCase url) email_fragments then email
    else if includes_any (toLowerCase url) chat_fragments then chat
    else if includes_any (toLowerCase url) jira_fragments then jira
    else web.
Proof. by destruct url. Qed.

Lemma fragments_nonempty :
  Forall (λ f : jstr, f ≠ []) (email_fragments ++ chat_fragments ++ jira_fragments).
Proof. repeat constructor; discriminate. Qed.

Lemma mentions_nonempty url fragments :
  Forall (λ f, f ≠ []) fragments → mentions url fragments → url ≠ [].
Proof. intros Hne Hm ->. by eapply empty_mentions_nothing. Qed.

(** C7.  Take URLs whose code units are all below 256, as those of a
    serialised URL are.  [detectSource] answers [web] for an absent (or
    empty) URL; [email] for every URL that contains, up to letter case,
    one of the email fragments, whatever else it contains; [chat] when it
    contains no email fragment but a chat fragment; [jira] when it
    contains neither but a jira fragment; and [web] when it contains none
    of the fragments.  Letter case never matters: two URLs that lower to
    the same string are classified alike. *)
Theorem detectSource_first_match (url url' : jstr) :
  latin1 url = true →
  latin1 url' = true →
  detectSource None = web ∧
  detectSource (Some []) = web ∧
  (mentions url email_fragments → detectSource (Some url) = email) ∧
  (¬ mentions url email_fragments → mentions url chat_fragments →
   detectSource (Some url) = chat) ∧
  (¬ mentions url email_fragments → ¬ mentions url chat_fragments →
   mentions url jira_fragments → detectSource (Some url) = jira) ∧
  (¬ mentions url (email_fragments ++ chat_fragments ++ jira_fragments) →
   detectSource (Some url) = web) ∧
  (toLowerCase url = toLowerCase url' →
   detectSource (Some url) = detectSource (Some url')).
Proof.
  intros _ _.
  pose proof fragments_nonempty as Hne.
  apply Forall_app in Hne as [Hne_email Hne].
  apply Forall_app in Hne as [Hne_chat Hne_jira].
  split_and!; [done | done | | | | |].
  - intros He. rewrite detectSource_unfold by eauto using mentions_nonempty.
    apply mentions_includes_any in He. by rewrite He.
  - intros He Hc. rewrite detectSource_unfold by eauto using mentions_nonempty.
    apply not_mentions_includes_any in He. apply mentions_includes_any in Hc.
    by rewrite He, Hc.
  - intros He Hc Hj. rewrite detectSource_unfold by eauto using mentions_nonempty.
    apply not_mentions_includes_any in He, Hc. apply mentions_includes_any in Hj.
    by rewrite He, Hc, Hj.
  - intros Hnone. destruct url as [|c url]; [done|].
    rewrite detectSource_unfold by done.
    apply not_mentions_includes_any in Hnone. unfold includes_any in *.
    rewrite !existsb_app in Hnone.
    apply orb_false_iff in Hnone as [-> Hnone].
    apply orb_false_iff in Hnone as [-> ->]. done.
  - intros Hlow. destruct url as [|c url], url' as [|c' url']; try done.
    by rewrite !detectSource_unfold, Hlow.
Qed.

(** A Gmail address in capitals is an email page, although it also names
    Jira. *)
Lemma detectSource_first_match_witness :
  detectSource (Some (str "HTTPS://MAIL.GOOGLE.COM/u/0/?q=jira")) = email.
Proof.
  apply (detectSource_first_match
           (str "HTTPS://MAIL.GOOGLE.COM/u/0/?q=jira") []);
    [reflexivity | reflexivity |].
  exists (str "mail.google.com"). split.
  - unfold email_fragments. apply list_elem_of_here.
  - exists (str "HTTPS://"), (str "MAIL.GOOGLE.COM"), (str "/u/0/?q=jira").
    split; reflexivity.
Defined.

End ClassifierFacts.

(** ** Title generation *)

Section TitleFacts.

Import Popup.

(** C3, as stated, fails: this description has 65 code units and its
    fiftieth is a space, which [trim] takes off the 50-unit prefix; the
    title is 49 units and the ellipsis, not the first 50 and the
    ellipsis. *)
Lemma generateTitle_not_first_50 :
  let text := str "Please review the quarterly budget proposal draft and reply today" in
  length text = 65 ∧
  generateTitle text ≠ take 50 text ++ ellipsis ∧
  generateTitle text = str "Please review the quarterly budget proposal draft..." ∧
  length (generateTitle text) = 49 + length ellipsis.
Proof. vm_compute. split_and!; [reflexivity | discriminate | reflexivity..]. Qed.

(** C3, amended.  For a description longer than 50 code units the title is
    its first 50 code units, trimmed, followed by the ellipsis: at most 50
    units and the ellipsis, and exactly the first 50 and the ellipsis when
    that prefix neither starts nor ends with white space.  Otherwise the
    title is the trimmed description. *)
Theorem generateTitle_trimmed_prefix (text : jstr) :
  (50 < length text →
   generateTitle text = trim (take 50 text) ++ ellipsis ∧
   length (generateTitle text) ≤ 50 + length ellipsis ∧
   (tight (take 50 text) →
    generateTitle text = take 50 text ++ ellipsis ∧
    length (generateTitle text) = 50 + length ellipsis)) ∧
  (length text ≤ 50 → generateTitle text = trim text).
Proof.
  unfold generateTitle, substring0. split.
  - intros Hlong. rewrite decide_True by done. split_and!; [done | |].
    + rewrite length_app.
      pose proof (trim_length (take 50 text)) as Htrim.
      rewrite length_take in Htrim. lia.
    + intros Htight. rewrite (trim_tight _ Htight). split; [done|].
      rewrite length_app, length_take. lia.
  - intros Hshort. rewrite decide_False by lia. done.
Qed.

(** A description of 65 code units whose 50-unit prefix ends in a letter. *)
Lemma generateTitle_trimmed_prefix_witness :
  let text := str "Book the flight to Berlin and reserve a hotel room near the venue" in
  generateTitle text = str "Book the flight to Berlin and reserve a hotel room..." ∧
  length (generateTitle text) = 53.
Proof.
  intros text.
  pose proof (generateTitle_trimmed_prefix text) as [Hlong _].
  assert (50 < length text) as Hlen by (vm_compute; lia).
  destruct (Hlong Hlen) as (_ & _ & Htight).
  assert (tight (take 50 text)) as Ht.
  { split; intros c Hc; vm_compute in Hc; injection Hc as <-; reflexivity. }
  destruct (Htight Ht) as [Heq Hl]. split; [exact Heq | exact Hl].
Defined.

End TitleFacts.

(** ** Waking the backend up *)

Section WakeUpFacts.

Import WakeUp.

Lemma start_invariant screen main : invariant screen main (start screen main).
Proof. by repeat split. Qed.

Lemma step_invariant screen main e s s' :
  invariant screen main s → step e s = Some s' → invariant screen main s'.
Proof.
  destruct s as [ph ws mc at_ ci im fl co pr rc se wk].
  unfold invariant, step, on_awake, resolve; simpl.
  intros Hinv Hstep.
  destruct e as [[]| |[]|[]], ph; simplify_eq/=;
    repeat match goal with
    | H : context [if ?b then _ else _] |- _ => destruct b eqn:?; simplify_eq/=
    | H : context [match ?n with O => _ | S _ => _ end] |- _ =>
        destruct n eqn:?; simplify_eq/=
    | H : _ ∧ _ |- _ => destruct H
    end;
    simplify_eq/=; repeat split; done.
Qed.

Lemma run_invariant screen main events s s' :
  invariant screen main s → run events s = Some s' → invariant screen main s'.
Proof.
  revert s. induction events as [|e events IH]; intros s Hinv Hrun; simpl in Hrun.
  - by simplify_eq.
  - destruct (step e s) as [s1|] eqn:Hstep; [|done].
    eapply IH; [|done]. by eapply step_invariant.
Qed.

(** A step records a check that answered [true], and counts the calls of
    [resolve]. *)
Lemma step_records e s s' :
  step e s = Some s' →
  woken s' = woken s || answers_true e ∧
  resolve_calls s' = resolve_calls s + (if calls_resolve e then 1 else 0).
Proof.
  destruct s as [ph ws mc at_ ci im fl co pr rc se wk].
  unfold step, on_awake, resolve; simpl. intros Hstep.
  destruct e as [[]| |[]|[]], ph; simplify_eq/=;
    repeat match goal with
    | H : context [if ?b then _ else _] |- _ => destruct b eqn:?; simplify_eq/=
    | H : context [match ?n with O => _ | S _ => _ end] |- _ =>
        destruct n eqn:?; simplify_eq/=
    end;
    try destruct pr; simpl; rewrite ?orb_true_r, ?orb_false_r; split; (done || lia).
Qed.

Lemma run_records events s s' :
  run events s = Some s' →
  woken s' = woken s || existsb answers_true events ∧
  resolve_calls s' = resolve_calls s
    + length (filter (λ e, calls_resolve e = true) events).
Proof.
  revert s. induction events as [|e events IH]; intros s Hrun; simpl in Hrun.
  - simplify_eq. simpl. rewrite orb_false_r. split; [done | lia].
  - destruct (step e s) as [s1|] eqn:Hstep; [|done].
    destruct (step_records _ _ _ Hstep) as [Hwoken Hcalls].
    destruct (IH _ Hrun) as [Hwoken' Hcalls'].
    rewrite Hwoken', Hwoken, Hcalls', Hcalls, filter_cons. simpl.
    rewrite orb_assoc. split; [done|].
    destruct (calls_resolve e); simpl; lia.
Qed.

(** C5.  Take any run of [wakeUpBackend]: the first check, ticks of the
    interval, and the ends of the checks in flight, in any order.  The
    promise handed to the caller has been settled at most once, however
    often the success branches have called [resolve]: once for every
    immediate or interval check that answered [true].  Once any health
    check of the run has answered [true], the first one, the immediate one
    or one started by the interval, the promise is fulfilled and has been
    settled exactly once, the interval is cleared, so that no further tick
    can run, and the standby configuration is not left on the page: in the
    polling phase the wake-up screen is hidden and the main content shown,
    and after the early return the two elements are displayed as they were
    before the call, which never put the standby configuration up.  As
    long as no check has answered [true] the promise is pending. *)
Theorem wakeUp_settles_once (screen main : Display) (events : list Event) (s : State) :
  run events (start screen main) = Some s →
  settlements s ≤ 1 ∧
  resolve_calls s = length (filter (λ e, calls_resolve e = true) events) ∧
  woken s = existsb answers_true events ∧
  (existsb answers_true events = true →
   promise s = Fulfilled ∧ settlements s = 1 ∧
   checkInterval s = false ∧ step Tick s = None ∧
   (phase s = Polling → wakeupScreen s = none ∧ mainContent s = block) ∧
   (phase s = ReturnedEarly → wakeupScreen s = screen ∧ mainContent s = main) ∧
   (¬ waking (start screen main) → ¬ waking s)) ∧
  (existsb answers_true events = false → promise s = Pending ∧ settlements s = 0).
Proof.
  intros Hrun.
  pose proof (run_invariant _ _ _ _ _ (start_invariant screen main) Hrun) as Hinv.
  destruct (run_records _ _ _ Hrun) as [Hwoken Hcalls].
  cbn [start woken resolve_calls orb] in Hwoken, Hcalls.
  rewrite <- Hwoken. split_and!; [| done | done | |].
  - unfold invariant in Hinv.
    destruct (phase s), (woken s);
      repeat match goal with H : _ ∧ _ |- _ => destruct H end; lia.
  - intros Hw. unfold invariant, waking, step in *. rewrite Hw in Hinv.
    destruct (phase s);
      repeat match goal with H : _ ∧ _ |- _ => destruct H end;
      simplify_eq/=; split_and!; try done.
    all: try (intros _ [? ?]; congruence).
    all: try (by replace (checkInterval s) with false).
    all: try (intros [? ?]; congruence).
  - intros Hw. unfold invariant in Hinv. rewrite Hw in Hinv.
    destruct (phase s);
      repeat match goal with H : _ ∧ _ |- _ => destruct H end;
      simplify_eq/=; done.
Qed.

(** The page starts with the wake-up screen hidden; the immediate check
    and a check started by the first tick both answer [true]: [resolve] is
    called twice and the promise is settled once. *)
Lemma wakeUp_settles_once_witness :
  ∃ s, run [FirstCheckDone false; Tick; ImmediateCheckDone true;
            IntervalCheckDone true] (start none block) = Some s ∧
       resolve_calls s = 2 ∧ settlements s = 1 ∧ promise s = Fulfilled ∧
       checkInterval s = false ∧ wakeupScreen s = none ∧ mainContent s = block ∧
       ¬ waking s.
Proof.
  eexists. split; [reflexivity|]. split; [reflexivity|].
  pose proof (wakeUp_settles_once none block
                [FirstCheckDone false; Tick; ImmediateCheckDone true;
                 IntervalCheckDone true] _ eq_refl) as (_ & _ & _ & Hwoken & _).
  destruct (Hwoken eq_refl) as (Hp & Hs & Hc & _ & Hui & _ & Hnot).
  destruct (Hui eq_refl) as [Hw Hm].
  split_and!; try assumption.
  apply Hnot. intros [Hflex _]. discriminate Hflex.
Defined.

End WakeUpFacts.

(** ** Resolvers of the storage variant *)

Section StorageFacts.

Import Forge.

Implicit Types (w : World) (tasks : list Task) (t : Task).

Lemma filter_complement_length tasks (taskId : jstr) :
  length (filter (λ t, id t ≠ taskId) tasks)
  + length (filter (λ t, id t = taskId) tasks) = length tasks.
Proof.
  induction tasks as [|t tasks IH]; [done|].
  rewrite !filter_cons. destruct (decide (id t = taskId)) as [Heq|Hne].
  - rewrite decide_False by (intros Hn; by apply Hn). simpl. lia.
  - rewrite decide_True by done. simpl. lia.
Qed.

Lemma filter_all tasks (taskId : jstr) :
  (∀ t, t ∈ tasks → id t ≠ taskId) → filter (λ t, id t ≠ taskId) tasks = tasks.
Proof.
  induction tasks as [|t tasks IH]; intros Hall; [done|].
  rewrite filter_cons_True by (apply Hall; left).
  f_equal. apply IH. intros t' Ht'. apply Hall. by right.
Qed.

Lemma deleteTask_stores (taskId : jstr) w :
  tasks_of (deleteTask taskId w).2 = filter (λ t, id t ≠ taskId) (tasks_of w).
Proof. reflexivity. Qed.

(** C10.  [deleteTask] of the storage variant answers [{ success: true }]
    for every id; the list it stores keeps exactly the tasks whose id
    differs from the given one, each unchanged and in the original order
    (a sublist that loses only the tasks with that id), and is the list
    it found when no task has the id. *)
Theorem deleteTask_removes_matching (taskId : jstr) (w : World) :
  let reply := (deleteTask taskId w).1 in
  let before := tasks_of w in
  let after := tasks_of (deleteTask taskId w).2 in
  reply = succeeded ∧ success reply = true ∧
  (∀ t, t ∈ after ↔ t ∈ before ∧ id t ≠ taskId) ∧
  after `sublist_of` before ∧
  length after + length (filter (λ t, id t = taskId) before) = length before ∧
  (∀ taskId', taskId' ≠ taskId →
   filter (λ t, id t = taskId') after = filter (λ t, id t = taskId') before) ∧
  ((∀ t, t ∈ before → id t ≠ taskId) → after = before).
Proof.
  intros reply before after. subst reply after. rewrite deleteTask_stores.
  fold before. split_and!; [done | done | | | | |].
  - intros t. rewrite list_elem_of_filter. tauto.
  - apply sublist_filter.
  - apply filter_complement_length.
  - intros taskId' Hne. rewrite list_filter_filter.
    apply list_filter_iff. intros t. split; [tauto|]. intros <-. done.
  - apply filter_all.
Qed.

(** Deleting an id that no stored task has. *)
Lemma deleteTask_removes_matching_witness :
  let w := Samples.world [Samples.task "task-1" pending; Samples.task "task-2" declined] in
  tasks_of (deleteTask (str "task-404") w).2 = tasks_of w.
Proof.
  intros w. apply (deleteTask_removes_matching (str "task-404") w).
  intros t Ht. apply list_elem_of_In in Ht. simpl in Ht.
  destruct Ht as [<- | [<- | []]]; discriminate.
Defined.

Lemma findTask_absent (taskId : jstr) tasks :
  (∀ t, t ∈ tasks → id t ≠ taskId) → findTask taskId tasks = None.
Proof.
  intros Hall. apply list_find_None, Forall_forall. exact Hall.
Qed.

(** C9.  When no stored task has the given id, [declineTask] and
    [restoreTask] of the storage variant each answer
    [{ success: false, error: 'Task not found' }] and leave the storage as
    it was: the stored list is the same and no [storage.set] is made. *)
Theorem not_found_leaves_storage (taskId now : jstr) (w : World) :
  (∀ t, t ∈ tasks_of w → id t ≠ taskId) →
  declineTask taskId now w = (failed (str "Task not found"), w) ∧
  restoreTask taskId w = (failed (str "Task not found"), w) ∧
  success (failed (str "Task not found")) = false.
Proof.
  intros Hall. apply findTask_absent in Hall.
  unfold declineTask, restoreTask, bind, get_tasks, findIndex.
  by rewrite Hall.
Qed.

Lemma not_found_leaves_storage_witness :
  let w := Samples.world [Samples.task "task-1" pending; Samples.task "task-2" declined] in
  declineTask (str "task-404") (str "2024-05-02T10:00:00.000Z") w
    = (failed (str "Task not found"), w) ∧
  restoreTask (str "task-404") w = (failed (str "Task not found"), w).
Proof.
  intros w.
  destruct (not_found_leaves_storage (str "task-404")
              (str "2024-05-02T10:00:00.000Z") w) as (Hd & Hr & _).
  - intros t Ht. apply list_elem_of_In in Ht. simpl in Ht.
    destruct Ht as [<- | [<- | []]]; discriminate.
  - split; assumption.
Defined.

(** C2.  When the issue-creation request fails, by throwing or by a
    response outside 200-299, [sendToJira] answers [success: false] and
    stops there.  In the storage variant the stored list is untouched, the
    creation request is the only effect (no comment, no [storage.set]) and
    a pending task is still pending; in the backend variant the only
    requests are the fetch of the task and the creation request, so the
    backend is never told to mark the task as sent. *)
Theorem sendToJira_creation_failure_aborts
    (jira : JiraApi) (backend : BackendApi) (projectKey taskId : jstr)
    (assigneeId : option jstr) (now : jstr) (w : World) :
  (∀ taskIndex task,
     findTask taskId (tasks_of w) = Some (taskIndex, task) →
     creation_failed
       (create_issue jira (issueBody_of_task projectKey assigneeId task)) →
     let r := sendToJira jira projectKey taskId assigneeId now w in
     success r.1 = false ∧
     stored_tasks r.2 = stored_tasks w ∧
     effects r.2 = effects w
       ++ [JiraCreateIssue (issueBody_of_task projectKey assigneeId task)] ∧
     status_of taskId r.2 = Some (status task)) ∧
  (∀ taskResponse task,
     get_task backend (get_backendUrl w).1 taskId = Returned taskResponse →
     ok taskResponse = true →
     json taskResponse = Returned task →
     creation_failed
       (create_issue jira
          (ForgeBackend.issueBody_of_task projectKey assigneeId task)) →
     let r := ForgeBackend.sendToJira backend jira projectKey taskId assigneeId w in
     success r.1 = false ∧
     stored_tasks r.2 = stored_tasks w ∧
     effects r.2 = effects w
       ++ [FetchTask taskId;
           JiraCreateIssue
             (ForgeBackend.issueBody_of_task projectKey assigneeId task)]).
Proof.
  split.
  - intros taskIndex task Hfind Hfail.
    unfold sendToJira, bind, get_tasks, emit, status_of. rewrite Hfind. simpl.
    unfold creation_failed in Hfail.
    destruct (create_issue jira _) as [message | response]; simpl.
    + unfold tasks_of. simpl. fold (tasks_of w). by rewrite Hfind.
    + destruct (json response) as [message | result]; simpl.
      * unfold tasks_of. simpl. fold (tasks_of w). by rewrite Hfind.
      * rewrite Hfail. simpl.
        unfold tasks_of. simpl. fold (tasks_of w). by rewrite Hfind.
  - intros taskResponse task Hget Hok Hjson Hfail.
    unfold ForgeBackend.sendToJira, bind, get_backendUrl, emit in *.
    simpl in *. rewrite Hget, Hok, Hjson. simpl.
    unfold creation_failed in Hfail. rewrite <- app_assoc. simpl.
    destruct (create_issue jira _) as [message | response]; simpl; [done|].
    destruct (json response) as [message | result]; simpl; [done|].
    by rewrite Hfail.
Qed.

Lemma sendToJira_creation_failure_aborts_witness :
  let w := Samples.world [Samples.task "task-1" pending] in
  let known := Samples.backendTask "task-1" "Call Sam" in
  let backend := Samples.backend [] known 200 in
  success (sendToJira Samples.jira_rejects (str "DNM") (str "task-1") None
             (str "2024-05-02T10:00:00.000Z") w).1 = false ∧
  status_of (str "task-1")
    (sendToJira Samples.jira_rejects (str "DNM") (str "task-1") None
       (str "2024-05-02T10:00:00.000Z") w).2 = Some pending ∧
  effects (ForgeBackend.sendToJira backend Samples.jira_unreachable (str "DNM")
             (str "task-1") None w).2
  = [FetchTask (str "task-1");
     JiraCreateIssue (ForgeBackend.issueBody_of_task (str "DNM") None known)].
Proof.
  intros w known backend.
  destruct (sendToJira_creation_failure_aborts Samples.jira_rejects backend
              (str "DNM") (str "task-1") None (str "2024-05-02T10:00:00.000Z") w)
    as [Hstorage _].
  destruct (sendToJira_creation_failure_aborts Samples.jira_unreachable backend
              (str "DNM") (str "task-1") None (str "2024-05-02T10:00:00.000Z") w)
    as [_ Hbackend].
  destruct (Hstorage 0 (Samples.task "task-1" pending) eq_refl eq_refl)
    as (Hs & _ & _ & Hst).
  destruct (Hbackend (mkResponse 200 (Returned known)) known
              eq_refl eq_refl eq_refl I) as (_ & _ & He).
  split_and!; [exact Hs | exact Hst | exact He].
Defined.

(** C6.  When the backend answers a DELETE with 404, as it does for an id
    it does not have, [deleteTask] of the backend variant and
    [deleteFromBackend] both answer [{ success: true }]. *)
Theorem delete_404_is_success
    (backend : BackendApi) (taskId : jstr) (w : World) (response : Response unit) :
  delete_task backend (get_backendUrl w).1 taskId = Returned response →
  status_code response = 404%Z →
  (ForgeBackend.deleteTask backend taskId w).1 = flagged true ∧
  (deleteFromBackend backend taskId w).1 = flagged true ∧
  success (flagged true) = true.
Proof.
  intros Hdel H404.
  unfold ForgeBackend.deleteTask, deleteFromBackend, bind, get_backendUrl, emit in *.
  simpl in *. rewrite Hdel. simpl.
  rewrite (bool_decide_eq_true_2 _ H404), orb_true_r. done.
Qed.

Lemma delete_404_is_success_witness :
  let backend := Samples.backend [] (Samples.backendTask "task-1" "Call Sam") 404 in
  success (ForgeBackend.deleteTask backend (str "task-404") (Samples.world [])).1 = true ∧
  success (deleteFromBackend backend (str "task-404") (Samples.world [])).1 = true.
Proof.
  intros backend.
  destruct (delete_404_is_success backend (str "task-404") (Samples.world [])
              (mkResponse 404 (Returned tt)) eq_refl eq_refl) as (H1 & H2 & H3).
  rewrite H1, H2. split; exact H3.
Defined.

(** *** [syncFromBackend] *)

(** The backend tasks the loop inserts: those whose id is not in the set
    built before the loop. *)
Lemma sync_loop (existingIds : gset jstr) (now : jstr) tasks (n : nat)
    (backendTasks : list BackendTask) :
  foldl (sync_one existingIds now) (tasks, n) backendTasks =
  (reverse (localTask now <$> filter (λ bt, bt_id bt ∉ existingIds) backendTasks)
     ++ tasks,
   n + length (filter (λ bt, bt_id bt ∉ existingIds) backendTasks)).
Proof.
  revert tasks n. induction backendTasks as [|bt backendTasks IH]; intros tasks n.
  - simpl. f_equal. lia.
  - simpl. unfold sync_one at 2. rewrite filter_cons.
    destruct (decide (bt_id bt ∈ existingIds)) as [Hin | Hout].
    + rewrite decide_False by (intros Hn; by apply Hn). apply IH.
    + rewrite decide_True by done. simpl. rewrite IH.
      rewrite reverse_cons, <- app_assoc. simpl. f_equal. lia.
Qed.

(** What a sync does when the backend lists [backendTasks]. *)
Lemma sync_listed backend (now : jstr) w response backendTasks :
  get_pending backend (get_backendUrl w).1 = Returned response →
  ok response = true →
  json response = Returned backendTasks →
  let new :=
    reverse (localTask now <$>
      filter (λ bt, bt_id bt ∉@{gset jstr} list_to_set (id <$> tasks_of w))
             backendTasks) in
  syncFromBackend backend now w =
    (mkReply true None None None (Some (length new))
             (Some (length (new ++ tasks_of w))),
     mkWorld (Some (new ++ tasks_of w)) (flaskBackendUrl w)
             (env_FLASK_BACKEND_URL w)
             (effects w ++ [FetchPending; StorageSetTasks (new ++ tasks_of w)])).
Proof.
  intros Hget Hok Hjson new.
  assert (∀ u v e, tasks_of (mkWorld (stored_tasks w) u v e) = tasks_of w)
    as Htasks by reflexivity.
  unfold syncFromBackend, bind, get_backendUrl, emit, get_tasks, set_tasks, ret in *.
  simpl in *. rewrite Hget, Hok, Hjson. simpl.
  rewrite !Htasks, !sync_loop. simpl. fold new.
  rewrite <- app_assoc. simpl. subst new.
  by rewrite length_reverse, length_fmap.
Qed.

(** What a sync does when the backend does not list its tasks. *)
Lemma sync_not_listed backend (now : jstr) w :
  match get_pending backend (get_backendUrl w).1 with
  | Threw _ => True
  | Returned response =>
      ok response = false ∨ ∃ message, json response = Threw message
  end →
  success (syncFromBackend backend now w).1 = false ∧
  stored_tasks (syncFromBackend backend now w).2 = stored_tasks w ∧
  (get_backendUrl (syncFromBackend backend now w).2).1 = (get_backendUrl w).1.
Proof.
  unfold syncFromBackend, bind, get_backendUrl, emit. simpl.
  destruct (get_pending backend _) as [message | response]; simpl; [done|].
  destruct (ok response); simpl.
  - intros [? | [message ->]]; done.
  - done.
Qed.

Lemma localTask_id (now : jstr) bt : id (localTask now bt) = bt_id bt.
Proof. reflexivity. Qed.

Lemma localTask_status (now : jstr) bt : status (localTask now bt) = pending.
Proof. reflexivity. Qed.

Lemma filter_none {A} (P : A → Prop) `{∀ x, Decision (P x)} (l : list A) :
  (∀ x, x ∈ l → ¬ P x) → filter P l = [].
Proof.
  induction l as [|x l IH]; intros Hall; [done|].
  rewrite filter_cons_False by (apply Hall; left).
  apply IH. intros y Hy. apply Hall. by right.
Qed.

(** After a sync every listed id is a stored id. *)
Lemma listed_ids_stored (now : jstr) tasks (backendTasks : list BackendTask) bt :
  bt ∈ backendTasks →
  bt_id bt ∈@{gset jstr}
    list_to_set (id <$>
      (reverse (localTask now <$>
         filter (λ bt, bt_id bt ∉@{gset jstr} list_to_set (id <$> tasks))
                backendTasks) ++ tasks)).
Proof.
  intros Hbt. rewrite elem_of_list_to_set, fmap_app, elem_of_app.
  destruct (decide (bt_id bt ∈@{gset jstr} list_to_set (id <$> tasks)))
    as [Hold | Hnew].
  - right. by apply elem_of_list_to_set in Hold.
  - left. apply list_elem_of_fmap. exists (localTask now bt). split; [done|].
    apply elem_of_reverse, list_elem_of_fmap. exists bt. split; [done|].
    by apply list_elem_of_filter.
Qed.

(** The outcome of the listing request, as [syncFromBackend] sees it. *)
Lemma listing_cases backend w :
  (∃ response backendTasks,
     get_pending backend (get_backendUrl w).1 = Returned response ∧
     ok response = true ∧ json response = Returned backendTasks) ∨
  match get_pending backend (get_backendUrl w).1 with
  | Threw _ => True
  | Returned response =>
      ok response = false ∨ ∃ message, json response = Threw message
  end.
Proof.
  destruct (get_pending backend _) as [message | response]; [by right|].
  destruct (ok response) eqn:Hok; [|right; by left].
  destruct (json response) as [message | backendTasks] eqn:Hjson.
  - right. right. by exists message.
  - left. by exists response, backendTasks.
Qed.

(** C4.  Whatever is stored and whatever the backend answers,
    [syncFromBackend] stores the list it found with new records put in
    front; none of the new records has the id of a task of the list it
    found; when it answers [success: true], [added] is the number of new
    records; and a second sync against the same backend inserts nothing
    and reports [added: 0]. *)
Theorem syncFromBackend_skips_known_ids
    (backend : BackendApi) (now now' : jstr) (w : World) :
  let first := syncFromBackend backend now w in
  let second := syncFromBackend backend now' first.2 in
  ∃ new,
    tasks_of first.2 = new ++ tasks_of w ∧
    (∀ t, t ∈ new → id t ∉ id <$> tasks_of w) ∧
    (success first.1 = true → added first.1 = Some (length new)) ∧
    (success first.1 = false → new = []) ∧
    tasks_of second.2 = tasks_of first.2 ∧
    (success second.1 = true → added second.1 = Some 0).
Proof.
  intros first second.
  destruct (listing_cases backend w)
    as [(response & backendTasks & Hget & Hok & Hjson) | Hnot].
  - pose proof (sync_listed backend now w _ _ Hget Hok Hjson) as Hfirst.
    cbv zeta in Hfirst. fold first in Hfirst.
    assert (get_pending backend (get_backendUrl first.2).1 = Returned response)
      as Hget2 by (rewrite Hfirst; exact Hget).
    pose proof (sync_listed backend now' first.2 _ _ Hget2 Hok Hjson) as Hsecond.
    cbv zeta in Hsecond. fold second in Hsecond.
    assert (tasks_of first.2 =
            reverse (localTask now <$>
              filter (λ bt, bt_id bt ∉@{gset jstr} list_to_set (id <$> tasks_of w))
                     backendTasks) ++ tasks_of w)
      as Htasks by (by rewrite Hfirst).
    rewrite Htasks in Hsecond.
    rewrite filter_none in Hsecond
      by (intros bt Hbt Hnot; apply Hnot; by apply listed_ids_stored).
    simpl in Hsecond.
    eexists. split; [exact Htasks|]. split_and!.
    + intros t Ht. rewrite elem_of_reverse in Ht.
      apply list_elem_of_fmap in Ht as (bt & -> & Hbt).
      apply list_elem_of_filter in Hbt as [Hfresh _].
      rewrite localTask_id. intros Hin. apply Hfresh.
      by apply elem_of_list_to_set.
    + intros _. by rewrite Hfirst.
    + rewrite Hfirst. done.
    + rewrite Hsecond. unfold tasks_of at 1. simpl. by rewrite Htasks.
    + intros _. rewrite Hsecond. reflexivity.
  - pose proof (sync_not_listed backend now w Hnot) as (Hfail & Hsame & Hurl).
    fold first in Hfail, Hsame, Hurl.
    rewrite <- Hurl in Hnot.
    pose proof (sync_not_listed backend now' first.2 Hnot) as (Hfail2 & Hsame2 & _).
    fold second in Hfail2, Hsame2.
    exists []. unfold tasks_of. rewrite Hsame2, Hsame, Hfail, Hfail2.
    split_and!; [done | | done..].
    intros t Ht. by apply elem_of_nil in Ht.
Qed.

(** One listed task is already stored, the other is new. *)
Lemma syncFromBackend_skips_known_ids_witness :
  let w := Samples.world [Samples.task "task-1" pending] in
  let backend :=
    Samples.backend [Samples.backendTask "task-1" "Call Sam";
                     Samples.backendTask "task-2" "Book flight by Friday"]
                    (Samples.backendTask "task-1" "Call Sam") 200 in
  let first := syncFromBackend backend (str "2024-05-02T10:00:00.000Z") w in
  let second := syncFromBackend backend (str "2024-05-02T10:05:00.000Z") first.2 in
  id <$> tasks_of first.2 = [str "task-2"; str "task-1"] ∧
  added first.1 = Some 1 ∧
  tasks_of second.2 = tasks_of first.2 ∧
  added second.1 = Some 0.
Proof.
  intros w backend first second.
  destruct (syncFromBackend_skips_known_ids backend
              (str "2024-05-02T10:00:00.000Z") (str "2024-05-02T10:05:00.000Z") w)
    as (new & Hnew & _ & Hadded & _ & Hsame & Hzero).
  fold first in Hnew, Hadded, Hsame. fold second in Hsame, Hzero.
  split_and!.
  - vm_compute. reflexivity.
  - vm_compute. reflexivity.
  - exact Hsame.
  - apply Hzero. vm_compute. reflexivity.
Defined.

(** Ids are compared with the stored list only: a response that lists an
    id twice gets it stored twice. *)
Example syncFromBackend_repeated_listing :
  let backend :=
    Samples.backend [Samples.backendTask "task-9" "Call Sam";
                     Samples.backendTask "task-9" "Call Sam"]
                    (Samples.backendTask "task-9" "Call Sam") 200 in
  let r := syncFromBackend backend (str "2024-05-02T10:00:00.000Z")
             (Samples.world []) in
  id <$> tasks_of r.2 = [str "task-9"; str "task-9"] ∧ added r.1 = Some 2.
Proof. vm_compute. split; reflexivity. Qed.

(** C8.  Whatever is stored and whatever the backend answers,
    [syncFromBackend] leaves the list it found as a suffix of the list it
    stores: every task it found keeps its content and its place after the
    new records, which are all put in front and all have status
    [pending]. *)
Theorem syncFromBackend_prepends_pending
    (backend : BackendApi) (now : jstr) (w : World) :
  let r := syncFromBackend backend now w in
  ∃ new,
    tasks_of r.2 = new ++ tasks_of w ∧
    Forall (λ t, status t = pending) new ∧
    (∀ i t, tasks_of w !! i = Some t → tasks_of r.2 !! (length new + i) = Some t) ∧
    (success r.1 = false → stored_tasks r.2 = stored_tasks w).
Proof.
  intros r.
  destruct (listing_cases backend w)
    as [(response & backendTasks & Hget & Hok & Hjson) | Hnot].
  - pose proof (sync_listed backend now w _ _ Hget Hok Hjson) as Hr.
    cbv zeta in Hr. fold r in Hr.
    assert (tasks_of r.2 =
            reverse (localTask now <$>
              filter (λ bt, bt_id bt ∉@{gset jstr} list_to_set (id <$> tasks_of w))
                     backendTasks) ++ tasks_of w)
      as Htasks by (by rewrite Hr).
    eexists. split_and!.
    + exact Htasks.
    + apply Forall_forall. intros t Ht. rewrite elem_of_reverse in Ht.
      apply list_elem_of_fmap in Ht as (bt & -> & _). apply localTask_status.
    + intros i t Hi. rewrite Htasks, lookup_app_r by lia.
      by rewrite Nat.add_comm, Nat.add_sub.
    + by rewrite Hr.
  - pose proof (sync_not_listed backend now w Hnot) as (_ & Hsame & _).
    fold r in Hsame. exists []. unfold tasks_of. rewrite Hsame.
    split_and!; [done | constructor | done | done].
Qed.

Lemma syncFromBackend_prepends_pending_witness :
  let w := Samples.world [Samples.task "task-1" declined] in
  let backend :=
    Samples.backend [Samples.backendTask "task-2" "Book flight by Friday"]
                    (Samples.backendTask "task-2" "Book flight by Friday") 200 in
  let r := syncFromBackend backend (str "2024-05-02T10:00:00.000Z") w in
  tasks_of r.2 !! 1 = Some (Samples.task "task-1" declined).
Proof.
  intros w backend r.
  destruct (syncFromBackend_prepends_pending backend
              (str "2024-05-02T10:00:00.000Z") w)
    as (new & Hnew & _ & Hkept & _).
  fold r in Hnew, Hkept.
  assert (length new = 1) as Hlen.
  { apply (f_equal length) in Hnew. rewrite length_app in Hnew.
    assert (length (tasks_of r.2) = 2) as Hafter by (vm_compute; reflexivity).
    assert (length (tasks_of w) = 1) as Hbefore by reflexivity.
    lia. }
  specialize (Hkept 0 (Samples.task "task-1" declined) eq_refl).
  rewrite Hlen in Hkept. exact Hkept.
Defined.

End StorageFacts.

(** ** Status transitions *)

Section LifecycleFacts.

Import Forge Dashboard.

Implicit Types (w : World) (tasks : list Task) (t : Task) (op : Op).

Local Arguments findTask : simpl never.

Lemma findTask_cons (i : jstr) t tasks :
  findTask i (t :: tasks) =
    if decide (id t = i) then Some (0, t)
    else prod_map S (λ x, x) <$> findTask i tasks.
Proof. reflexivity. Qed.

Lemma status_found_shift (found : option (nat * Task)) :
  status_found (prod_map S (λ x, x) <$> found) = status_found found.
Proof. by destruct found as [[k t]|]. Qed.

(** Updating the first task with id [taskId] in place, by an update that
    keeps ids, changes the status found under [taskId] and no other. *)
Lemma status_alter (f : Task → Task) (taskId i : jstr) tasks k t :
  (∀ x, id (f x) = id x) →
  findTask taskId tasks = Some (k, t) →
  status_found (findTask i (alter f k tasks)) =
    if decide (i = taskId) then Some (status (f t))
    else status_found (findTask i tasks).
Proof.
  intros Hid. revert k. induction tasks as [|x tasks IH]; intros k Hfind; [done|].
  rewrite findTask_cons in Hfind. destruct (decide (id x = taskId)) as [Hx | Hx].
  - simplify_eq/=. rewrite !findTask_cons, Hid.
    destruct (decide (id t = i)) as [<- | Hne].
    + by rewrite decide_True.
    + by rewrite decide_False by congruence.
  - destruct (findTask taskId tasks) as [[k' t']|] eqn:Hrest; simplify_eq/=.
    rewrite !findTask_cons. destruct (decide (id x = i)) as [<- | Hne].
    + by rewrite decide_False by congruence.
    + rewrite !status_found_shift. by apply IH.
Qed.

(** Filtering out the tasks with id [taskId] removes the status found
    under [taskId] and changes no other. *)
Lemma status_filter (taskId i : jstr) tasks :
  status_found (findTask i (filter (λ t, id t ≠ taskId) tasks)) =
    if decide (i = taskId) then None else status_found (findTask i tasks).
Proof.
  induction tasks as [|x tasks IH]; [by destruct (decide (i = taskId))|].
  rewrite filter_cons, findTask_cons.
  destruct (decide (id x ≠ taskId)) as [Hx | Hx].
  - rewrite findTask_cons. destruct (decide (id x = i)) as [<- | Hne].
    + by rewrite decide_False.
    + by rewrite !status_found_shift.
  - apply dec_stable in Hx. rewrite IH.
    destruct (decide (i = taskId)) as [-> | Hne]; [done|].
    rewrite decide_False by congruence. by rewrite status_found_shift.
Qed.

Lemma ids_alter (f : Task → Task) k tasks :
  (∀ x, id (f x) = id x) → id <$> alter f k tasks = id <$> tasks.
Proof.
  intros Hid. rewrite (list_fmap_alter id f (λ x, x)).
  - by apply list_alter_id.
  - apply Forall_forall. intros x _. apply Hid.
Qed.

(** With unique ids, a stored task is the one found under its id. *)
Lemma unique_found tasks t :
  NoDup (id <$> tasks) → t ∈ tasks → ∃ k, findTask (id t) tasks = Some (k, t).
Proof.
  induction tasks as [|x tasks IH]; intros Hdup Hin; [by apply elem_of_nil in Hin|].
  rewrite fmap_cons in Hdup. apply NoDup_cons in Hdup as [Hx Hdup].
  rewrite findTask_cons. apply elem_of_cons in Hin as [-> | Hin].
  - exists 0. by rewrite decide_True.
  - destruct (IH Hdup Hin) as [k Hk]. exists (S k).
    rewrite decide_False, Hk; [done|].
    intros Heq. apply Hx. rewrite Heq. by apply list_elem_of_fmap_2.
Qed.

(** *** What each resolver stores *)

Lemma declineTask_stores (taskId now : jstr) w :
  tasks_of (declineTask taskId now w).2 =
    match findTask taskId (tasks_of w) with
    | Some (k, _) => alter (mark_declined now) k (tasks_of w)
    | None => tasks_of w
    end.
Proof.
  unfold declineTask, bind, get_tasks, findIndex. simpl.
  by destruct (findTask taskId (tasks_of w)) as [[k t]|].
Qed.

Lemma restoreTask_stores (taskId : jstr) w :
  tasks_of (restoreTask taskId w).2 =
    match findTask taskId (tasks_of w) with
    | Some (k, _) => alter mark_pending k (tasks_of w)
    | None => tasks_of w
    end.
Proof.
  unfold restoreTask, bind, get_tasks, findIndex. simpl.
  by destruct (findTask taskId (tasks_of w)) as [[k t]|].
Qed.

Lemma sendToJira_stores jira (projectKey taskId : jstr) assigneeId (now : jstr) w :
  tasks_of (sendToJira jira projectKey taskId assigneeId now w).2 = tasks_of w ∨
  ∃ k t issueKey issueId,
    findTask taskId (tasks_of w) = Some (k, t) ∧
    tasks_of (sendToJira jira projectKey taskId assigneeId now w).2 =
      alter (mark_sent issueKey issueId now) k (tasks_of w).
Proof.
  unfold sendToJira, bind, get_tasks, emit. simpl.
  destruct (findTask taskId (tasks_of w)) as [[k t]|] eqn:Hfind; [|by left].
  simpl. destruct (create_issue jira _) as [? | response]; [by left|].
  destruct (json response) as [? | result]; [by left|].
  destruct (ok response); simpl; [|by left].
  destruct (add_comment jira _); [by left|].
  right. by exists k, t, (key result), (issue_id result).
Qed.

(** A call leaves the status found under an id as it was, or it is the
    call's target and gets the status the call writes.  No resolver looks
    at the status it overwrites. *)
Lemma status_after op w (i : jstr) :
  status_of i (after op w) = status_of i w ∨
  (i = target op ∧ is_Some (status_of i w) ∧ status_of i (after op w) = written op).
Proof.
  unfold status_of, after.
  destruct op as [jira projectKey taskId assigneeId now | taskId now | taskId | taskId];
    cbn [invoke target written].
  - destruct (sendToJira_stores jira projectKey taskId assigneeId now w)
      as [-> | (k & t & issueKey & issueId & Hfind & ->)]; [by left|].
    rewrite (status_alter _ taskId i _ k t) by done.
    destruct (decide (i = taskId)) as [-> | Hne]; [|by left].
    right. by rewrite Hfind.
  - rewrite declineTask_stores.
    destruct (findTask taskId (tasks_of w)) as [[k t]|] eqn:Hfind; [|by left].
    rewrite (status_alter _ taskId i _ k t) by done.
    destruct (decide (i = taskId)) as [-> | Hne]; [|by left].
    right. by rewrite Hfind.
  - rewrite restoreTask_stores.
    destruct (findTask taskId (tasks_of w)) as [[k t]|] eqn:Hfind; [|by left].
    rewrite (status_alter _ taskId i _ k t) by done.
    destruct (decide (i = taskId)) as [-> | Hne]; [|by left].
    right. by rewrite Hfind.
  - rewrite deleteTask_stores, status_filter.
    destruct (decide (i = taskId)) as [-> | Hne]; [|by left].
    destruct (status_found (findTask taskId (tasks_of w))) eqn:Hs; [|by left].
    right. done.
Qed.

Lemma after_unique op w : unique_ids w → unique_ids (after op w).
Proof.
  unfold unique_ids, after. intros Hdup.
  destruct op as [jira projectKey taskId assigneeId now | taskId now | taskId | taskId];
    cbn [invoke target written].
  - destruct (sendToJira_stores jira projectKey taskId assigneeId now w)
      as [-> | (k & t & issueKey & issueId & Hfind & ->)]; [done|].
    by rewrite ids_alter.
  - rewrite declineTask_stores.
    destruct (findTask taskId (tasks_of w)) as [[k t]|]; [|done].
    by rewrite ids_alter.
  - rewrite restoreTask_stores.
    destruct (findTask taskId (tasks_of w)) as [[k t]|]; [|done].
    by rewrite ids_alter.
  - rewrite deleteTask_stores.
    eapply sublist_NoDup; [done|]. apply fmap_sublist, sublist_filter.
Qed.

Lemma clicked_unique w ops w' : unique_ids w → clicked w ops w' → unique_ids w'.
Proof.
  intros Hdup Hclicked. induction Hclicked as [|w op ops w' _ _ IH]; [done|].
  by apply IH, after_unique.
Qed.

(** C1, as stated, fails: [sendToJira] does not look at the status of the
    task it sends, so a call for a declined task, with the tracker
    accepting the issue, stores it as sent. *)
Lemma declined_task_can_be_sent :
  let w := Samples.world [Samples.task "task-1" declined] in
  let op := InvokeSendToJira Samples.jira_accepts (str "DNM") (str "task-1")
              None (str "2024-05-02T10:00:00.000Z") in
  status_of (str "task-1") w = Some declined ∧
  status_of (str "task-1") (after op w) = Some sent ∧
  ¬ lifecycle (status_of (str "task-1") w) (status_of (str "task-1") (after op w)).
Proof.
  vm_compute. split_and!; [reflexivity | reflexivity |]. intros H. inversion H.
Qed.

(** C1, amended.  Start from a stored list with unique ids and make any
    sequence of calls of [sendToJira], [declineTask], [restoreTask] and
    [deleteTask], each at a moment when the card of its task shows the
    button that leads to the call (pending: Decline and Send to Jira;
    sent: neither of the four; declined: Delete and Restore).  Then every
    call changes the status of every task only along pending→sent,
    pending→declined, declined→pending or removal; in particular none
    takes a task from declined to sent, and the buttons of a declined
    task do not include Send to Jira.  The resolvers themselves do not
    look at the status they overwrite: a call, offered or not, leaves the
    status found under an id as it was or, for the id it is made for,
    writes the status that is its own. *)
Theorem offered_calls_follow_lifecycle
    (w0 w : World) (ops : list Op) (op : Op) (taskId : jstr) :
  unique_ids w0 →
  clicked w0 ops w →
  offered op w →
  lifecycle (status_of taskId w) (status_of taskId (after op w)) ∧
  ¬ (status_of taskId w = Some declined ∧
     status_of taskId (after op w) = Some sent) ∧
  (SendToJira ∉ task_actions declined) ∧
  (∀ op' w',
     status_of taskId (after op' w') = status_of taskId w' ∨
     (taskId = target op' ∧ is_Some (status_of taskId w') ∧
      status_of taskId (after op' w') = written op')).
Proof.
  intros Hunique0 Hclicked (t & Hin & Hid & Hbutton).
  cut (lifecycle (status_of taskId w) (status_of taskId (after op w)) ∧
       ¬ (status_of taskId w = Some declined ∧
          status_of taskId (after op w) = Some sent) ∧
       SendToJira ∉ task_actions declined).
  { intros (? & ? & ?). split_and!; [done.. |].
    intros op' w'. apply status_after. }
  pose proof (clicked_unique _ _ _ Hunique0 Hclicked) as Hunique.
  destruct (unique_found _ _ Hunique Hin) as [k Hfound].
  assert (status_of (target op) w = Some (status t)) as Hstatus.
  { unfold status_of. by rewrite <- Hid, Hfound. }
  assert (SendToJira ∉ task_actions declined) as Hnot.
  { intros Hs. simpl in Hs. absent_button Hs. }
  destruct (status_after op w taskId) as [-> | (-> & _ & ->)].
  - split_and!; [constructor | | done]. intros [-> ?]. done.
  - rewrite Hstatus. clear Hstatus Hfound.
    destruct op, (status t); simpl in *;
      try (exfalso; absent_button Hbutton);
      (split_and!; [constructor | intros [? ?]; done | done]).
Qed.

(** Decline, restore, then send: pending, declined, pending, sent. *)
Lemma offered_calls_follow_lifecycle_witness :
  let w0 := Samples.world [Samples.task "task-1" pending] in
  let decline := InvokeDeclineTask (str "task-1") (str "2024-05-02T10:00:00.000Z") in
  let restore := InvokeRestoreTask (str "task-1") in
  let send := InvokeSendToJira Samples.jira_accepts (str "DNM") (str "task-1")
                None (str "2024-05-02T10:10:00.000Z") in
  let w := after restore (after decline w0) in
  status_of (str "task-1") (after decline w0) = Some declined ∧
  status_of (str "task-1") w = Some pending ∧
  status_of (str "task-1") (after send w) = Some sent ∧
  lifecycle (status_of (str "task-1") w) (status_of (str "task-1") (after send w)).
Proof.
  intros w0 decline restore send w.
  split_and!; [reflexivity | reflexivity | reflexivity |].
  apply (offered_calls_follow_lifecycle w0 w [decline; restore] send (str "task-1")).
  - apply NoDup_singleton.
  - apply clicked_cons.
    + exists (Samples.task "task-1" pending).
      split_and!; [apply list_elem_of_here | reflexivity | apply list_elem_of_here].
    + apply clicked_cons; [|apply clicked_nil].
      exists (mark_declined (str "2024-05-02T10:00:00.000Z")
                (Samples.task "task-1" pending)).
      split_and!; [apply list_elem_of_here | reflexivity |].
      apply list_elem_of_further, list_elem_of_here.
  - exists (mark_pending (mark_declined (str "2024-05-02T10:00:00.000Z")
                            (Samples.task "task-1" pending))).
    split_and!; [apply list_elem_of_here | reflexivity |].
    apply list_elem_of_further, list_elem_of_here.
Defined.

End LifecycleFacts.

(* ===================================================================== *)
(** * Further properties *)
(* ===================================================================== *)

(** ** Adding, declining, restoring and sending in Forge storage *)

Section StorageMoreFacts.

Import Forge ForgeMore.

Implicit Types (w : World) (tasks : list Task) (t : Task).

Local Arguments findTask : simpl never.

Lemma findTask_found (taskId : jstr) tasks k t :
  findTask taskId tasks = Some (k, t) → tasks !! k = Some t ∧ id t = taskId.
Proof. intros (? & ? & _)%list_find_Some. done. Qed.

(** Updating the found task by an update that keeps its id leaves it the
    one found. *)
Lemma findTask_alter (f : Task → Task) (taskId : jstr) tasks k t :
  id (f t) = id t →
  findTask taskId tasks = Some (k, t) →
  findTask taskId (alter f k tasks) = Some (k, f t).
Proof.
  intros Hid (Hk & Ht & Hbefore)%list_find_Some. apply list_find_Some.
  split_and!.
  - by rewrite list_lookup_alter_eq, Hk.
  - by rewrite Hid.
  - intros j x Hj Hlt. rewrite list_lookup_alter_ne in Hj by lia. eauto.
Qed.

Lemma tasks_of_stored tasks u v e : tasks_of (mkWorld (Some tasks) u v e) = tasks.
Proof. reflexivity. Qed.

Lemma alter_fixed (f : Task → Task) tasks k t :
  tasks !! k = Some t → f t = t → alter f k tasks = tasks.
Proof.
  revert k. induction tasks as [|x tasks IH]; intros [|k] Hk Hf; simplify_eq/=.
  - by rewrite Hf.
  - f_equal. by apply IH.
Qed.

Lemma restore_of_declined (now : jstr) t :
  status t = pending → declinedAt t = None →
  mark_pending (mark_declined now t) = t.
Proof. destruct t. simpl. by intros -> ->. Qed.

(** X1.  A task that was pending and never declined comes back exactly:
    [declineTask] followed by [restoreTask] for its id stores the list
    that was stored before, [declinedAt] included, and both calls answer
    [success: true]. *)
Theorem decline_then_restore_is_identity (taskId now : jstr) (w : World) k t :
  findTask taskId (tasks_of w) = Some (k, t) →
  status t = pending →
  declinedAt t = None →
  let declined_world := (declineTask taskId now w).2 in
  success (declineTask taskId now w).1 = true ∧
  status_of taskId declined_world = Some declined ∧
  success (restoreTask taskId declined_world).1 = true ∧
  tasks_of (restoreTask taskId declined_world).2 = tasks_of w.
Proof.
  intros Hfind Hstatus Hat declined_world.
  pose proof (findTask_found _ _ _ _ Hfind) as [Hk _].
  assert (tasks_of declined_world = alter (mark_declined now) k (tasks_of w))
    as Hdeclined.
  { subst declined_world. unfold declineTask, bind, get_tasks, findIndex.
    by rewrite Hfind. }
  assert (findTask taskId (tasks_of declined_world)
          = Some (k, mark_declined now t)) as Hfind'.
  { rewrite Hdeclined. by apply findTask_alter. }
  split_and!.
  - unfold declineTask, bind, get_tasks, findIndex. by rewrite Hfind.
  - unfold status_of. by rewrite Hfind'.
  - unfold restoreTask, bind, get_tasks, findIndex. by rewrite Hfind'.
  - transitivity (alter mark_pending k (tasks_of declined_world)).
    { unfold restoreTask, bind, get_tasks, findIndex. by rewrite Hfind'. }
    rewrite Hdeclined, list_alter_alter_eq.
    apply (alter_fixed _ _ _ t Hk). by apply restore_of_declined.
Qed.

Lemma decline_then_restore_is_identity_witness :
  let w := Samples.world [Samples.task "task-1" sent; Samples.task "task-2" pending] in
  tasks_of (restoreTask (str "task-2")
              (declineTask (str "task-2") (str "2024-05-02T10:00:00.000Z") w).2).2
  = tasks_of w.
Proof.
  intros w.
  apply (decline_then_restore_is_identity (str "task-2")
           (str "2024-05-02T10:00:00.000Z") w 1 (Samples.task "task-2" pending));
    reflexivity.
Defined.

(** The fields that no status call writes. *)
Lemma mark_keeps_content (f : Task → Task) :
  (f = mark_pending ∨ (∃ now, f = mark_declined now) ∨
   ∃ issueKey issueId now, f = mark_sent issueKey issueId now) →
  ∀ t, id (f t) = id t ∧ title (f t) = title t ∧
       description (f t) = description t ∧ source (f t) = source t ∧
       url (f t) = url t ∧ priority (f t) = priority t ∧
       deadline (f t) = deadline t ∧ createdAt (f t) = createdAt t ∧
       createdVia (f t) = createdVia t.
Proof.
  intros [-> | [[now ->] | (issueKey & issueId & now & ->)]] t; by split_and!.
Qed.

Lemma Forall2_same (R : Task → Task → Prop) tasks :
  (∀ t, R t t) → Forall2 R tasks tasks.
Proof. intros Hrefl. induction tasks; constructor; auto. Qed.

Lemma Forall2_alter_same (R : Task → Task → Prop) (f : Task → Task) tasks k :
  (∀ t, R t t) → (∀ t, R t (f t)) → Forall2 R tasks (alter f k tasks).
Proof.
  intros Hrefl Hf. revert k.
  induction tasks as [|x tasks IH]; intros [|k]; simpl.
  - constructor.
  - constructor.
  - constructor; [apply Hf | by apply Forall2_same].
  - constructor; [apply Hrefl | apply IH].
Qed.

(** X2.  [sendToJira], [declineTask] and [restoreTask] update one record
    in place: the stored list keeps its length and order, every record
    keeps its id, title, description, source, url, priority, deadline and
    creation stamps, every record but the first one with the given id is
    left exactly as it was, and nothing at all changes when no record has
    the id. *)
Theorem status_calls_update_in_place (op : Dashboard.Op) (w : World) :
  Dashboard.written op ≠ None →
  Forall2 (λ t t', id t' = id t ∧ title t' = title t ∧
                   description t' = description t ∧ source t' = source t ∧
                   url t' = url t ∧ priority t' = priority t ∧
                   deadline t' = deadline t ∧ createdAt t' = createdAt t ∧
                   createdVia t' = createdVia t)
          (tasks_of w) (tasks_of (Dashboard.after op w)) ∧
  (∀ k t j, findTask (Dashboard.target op) (tasks_of w) = Some (k, t) →
            j ≠ k →
            tasks_of (Dashboard.after op w) !! j = tasks_of w !! j) ∧
  (findTask (Dashboard.target op) (tasks_of w) = None →
   tasks_of (Dashboard.after op w) = tasks_of w).
Proof.
  intros Hwritten. unfold Dashboard.after.
  destruct op as [jira projectKey taskId assigneeId now | taskId now | taskId | taskId];
    cbn [Dashboard.invoke Dashboard.target]; [| | |done].
  - destruct (sendToJira_stores jira projectKey taskId assigneeId now w)
      as [-> | (k & t & issueKey & issueId & Hfind & ->)].
    + split_and!; [by apply Forall2_same | done | done].
    + split_and!.
      * apply Forall2_alter_same; [done|].
        intros x. apply (mark_keeps_content (mark_sent issueKey issueId now)).
        right. right. eauto.
      * intros k' t' j Hfind' Hj. simplify_eq.
        by rewrite list_lookup_alter_ne.
      * by rewrite Hfind.
  - rewrite declineTask_stores.
    destruct (findTask taskId (tasks_of w)) as [[k t]|] eqn:Hfind.
    + split_and!; [| |done].
      * apply Forall2_alter_same; [done|].
        intros x. apply (mark_keeps_content (mark_declined now)). eauto.
      * intros k' t' j Hfind' Hj. simplify_eq. by rewrite list_lookup_alter_ne.
    + split_and!; [by apply Forall2_same | done | done].
  - rewrite restoreTask_stores.
    destruct (findTask taskId (tasks_of w)) as [[k t]|] eqn:Hfind.
    + split_and!; [| |done].
      * apply Forall2_alter_same; [done|].
        intros x. apply (mark_keeps_content mark_pending). eauto.
      * intros k' t' j Hfind' Hj. simplify_eq. by rewrite list_lookup_alter_ne.
    + split_and!; [by apply Forall2_same | done | done].
Qed.

Lemma status_calls_update_in_place_witness :
  let w := Samples.world [Samples.task "task-1" pending; Samples.task "task-2" pending] in
  let op := Dashboard.InvokeDeclineTask (str "task-1") (str "2024-05-02T10:00:00.000Z") in
  tasks_of (Dashboard.after op w) !! 1 = Some (Samples.task "task-2" pending).
Proof.
  intros w op.
  destruct (status_calls_update_in_place op w) as (_ & Hothers & _);
    [discriminate|].
  rewrite (Hothers 0 (Samples.task "task-1" pending) 1); [reflexivity.. | lia].
Defined.

(** X3.  The task [addTask] stores is put in front of the stored list and
    is the one found under its id [task-<Date.now()>], with status
    pending.  [deleteTask] for that id afterwards removes it together with
    every older task that has the same id, so it gives back the list of
    before the add exactly when the id was fresh. *)
Theorem addTask_then_deleteTask (payload : NewTask) (nowMs : Z) (nowIso : jstr)
    (w : World) :
  let added := addTask payload nowMs nowIso w in
  let taskId := str "task-" ++ decimal nowMs in
  success added.1 = true ∧
  reply_task added.1 = Some (newTask payload nowMs nowIso) ∧
  tasks_of added.2 = newTask payload nowMs nowIso :: tasks_of w ∧
  findTask taskId (tasks_of added.2) = Some (0, newTask payload nowMs nowIso) ∧
  status_of taskId added.2 = Some pending ∧
  tasks_of (deleteTask taskId added.2).2
    = filter (λ t, id t ≠ taskId) (tasks_of w) ∧
  ((∀ t, t ∈ tasks_of w → id t ≠ taskId) →
   tasks_of (deleteTask taskId added.2).2 = tasks_of w).
Proof.
  intros added taskId.
  assert (tasks_of added.2 = newTask payload nowMs nowIso :: tasks_of w)
    as Hadded by reflexivity.
  assert (findTask taskId (tasks_of added.2)
          = Some (0, newTask payload nowMs nowIso)) as Hfind.
  { rewrite Hadded, findTask_cons. by rewrite decide_True. }
  assert (tasks_of (deleteTask taskId added.2).2
          = filter (λ t, id t ≠ taskId) (tasks_of w)) as Hdeleted.
  { rewrite deleteTask_stores, Hadded.
    rewrite filter_cons_False; [done|]. intros Hne. by apply Hne. }
  split_and!; try done.
  - unfold status_of. by rewrite Hfind.
  - intros Hfresh. rewrite Hdeleted. by apply filter_all.
Qed.

Lemma addTask_then_deleteTask_witness :
  let w := Samples.world [Samples.task "task-1" sent] in
  let payload := mkNewTask (str "Call Sam") (str "Call Sam about the offer")
                   (str "chat") (str "https://app.slack.com/") None None in
  tasks_of (deleteTask (str "task-1714644000000")
              (addTask payload 1714644000000 (str "2024-05-02T10:00:00.000Z") w).2).2
  = tasks_of w.
Proof.
  intros w payload.
  apply (addTask_then_deleteTask payload 1714644000000
           (str "2024-05-02T10:00:00.000Z") w).
  intros t Ht. apply list_elem_of_In in Ht. simpl in Ht.
  destruct Ht as [<- | []]. vm_compute. discriminate.
Defined.

(** X4.  When the tracker creates the issue and takes the comment,
    [sendToJira] of the storage variant asks for the issue, then for the
    comment, then stores the list once: the first task with the given id
    is stored as sent with the tracker's key and id, whatever its status
    was, every other task is untouched, and the answer carries the key. *)
Theorem sendToJira_stores_sent
    (jira : JiraApi) (projectKey taskId : jstr) (assigneeId : option jstr)
    (now : jstr) (w : World) k t response result :
  findTask taskId (tasks_of w) = Some (k, t) →
  create_issue jira (issueBody_of_task projectKey assigneeId t) = Returned response →
  ok response = true →
  json response = Returned result →
  add_comment jira (key result) = Returned tt →
  let r := sendToJira jira projectKey taskId assigneeId now w in
  success r.1 = true ∧
  reply_jiraKey r.1 = Some (key result) ∧
  tasks_of r.2 !! k = Some (mark_sent (key result) (issue_id result) now t) ∧
  reply_task r.1 = tasks_of r.2 !! k ∧
  status_of taskId r.2 = Some sent ∧
  (∀ j, j ≠ k → tasks_of r.2 !! j = tasks_of w !! j) ∧
  effects r.2 = effects w
    ++ [JiraCreateIssue (issueBody_of_task projectKey assigneeId t);
        JiraAddComment (key result);
        StorageSetTasks (tasks_of r.2)].
Proof.
  intros Hfind Hcreate Hok Hjson Hcomment r.
  pose proof (findTask_found _ _ _ _ Hfind) as [Hk _].
  assert (r = (mkReply true None
                 (alter (mark_sent (key result) (issue_id result) now) k (tasks_of w) !! k)
                 (Some (key result)) None None,
               mkWorld (Some (alter (mark_sent (key result) (issue_id result) now) k
                                (tasks_of w)))
                       (flaskBackendUrl w) (env_FLASK_BACKEND_URL w)
                       (effects w
                          ++ [JiraCreateIssue (issueBody_of_task projectKey assigneeId t);
                              JiraAddComment (key result);
                              StorageSetTasks
                                (alter (mark_sent (key result) (issue_id result) now) k
                                   (tasks_of w))]))) as ->.
  { subst r. unfold sendToJira, bind, get_tasks, emit, set_tasks, ret.
    rewrite Hfind. simpl. rewrite Hcreate, Hjson, Hok. simpl.
    rewrite Hcomment. simpl. by rewrite <- !app_assoc. }
  cbn [fst snd success reply_jiraKey reply_task effects].
  unfold status_of. rewrite !tasks_of_stored.
  split_and!; try done.
  - by rewrite list_lookup_alter_eq, Hk.
  - by rewrite (findTask_alter _ taskId _ k t).
  - intros j Hj. by rewrite list_lookup_alter_ne.
Qed.

Lemma sendToJira_stores_sent_witness :
  let w := Samples.world [Samples.task "task-1" pending] in
  let r := sendToJira Samples.jira_accepts (str "DNM") (str "task-1") None
             (str "2024-05-02T10:00:00.000Z") w in
  success r.1 = true ∧ reply_jiraKey r.1 = Some (str "DNM-7") ∧
  status_of (str "task-1") r.2 = Some sent.
Proof.
  intros w r.
  destruct (sendToJira_stores_sent Samples.jira_accepts (str "DNM") (str "task-1")
              None (str "2024-05-02T10:00:00.000Z") w 0
              (Samples.task "task-1" pending)
              (mkResponse 201 (Returned (mkIssueResult (str "DNM-7") (str "10007") None)))
              (mkIssueResult (str "DNM-7") (str "10007") None)
              eq_refl eq_refl eq_refl eq_refl eq_refl)
    as (Hs & Hk & _ & _ & Hst & _).
  split_and!; assumption.
Defined.

(** X5.  When the tracker creates the issue but the comment request
    throws, [sendToJira] of the storage variant answers [success: false]
    with the thrown message and stores nothing: the task keeps its status
    and gets no issue key although the issue exists.  A repeated call
    therefore asks the tracker to create the issue again. *)
Theorem sendToJira_comment_failure_keeps_task
    (jira : JiraApi) (projectKey taskId : jstr) (assigneeId : option jstr)
    (now now' : jstr) (w : World) k t response result message :
  findTask taskId (tasks_of w) = Some (k, t) →
  create_issue jira (issueBody_of_task projectKey assigneeId t) = Returned response →
  ok response = true →
  json response = Returned result →
  add_comment jira (key result) = Threw message →
  let r := sendToJira jira projectKey taskId assigneeId now w in
  let again := sendToJira jira projectKey taskId assigneeId now' r.2 in
  r.1 = failed message ∧
  stored_tasks r.2 = stored_tasks w ∧
  effects r.2 = effects w
    ++ [JiraCreateIssue (issueBody_of_task projectKey assigneeId t);
        JiraAddComment (key result)] ∧
  again.1 = failed message ∧
  effects again.2 = effects w
    ++ [JiraCreateIssue (issueBody_of_task projectKey assigneeId t);
        JiraAddComment (key result);
        JiraCreateIssue (issueBody_of_task projectKey assigneeId t);
        JiraAddComment (key result)].
Proof.
  intros Hfind Hcreate Hok Hjson Hcomment r again.
  assert (∀ w', tasks_of w' = tasks_of w →
            sendToJira jira projectKey taskId assigneeId now w'
            = (failed message,
               mkWorld (stored_tasks w') (flaskBackendUrl w')
                 (env_FLASK_BACKEND_URL w')
                 (effects w'
                    ++ [JiraCreateIssue (issueBody_of_task projectKey assigneeId t);
                        JiraAddComment (key result)]))) as Hcall.
  { intros w' Hsame. unfold sendToJira, bind, get_tasks, emit, ret.
    rewrite Hsame, Hfind. simpl. rewrite Hcreate, Hjson, Hok. simpl.
    rewrite Hcomment. by rewrite <- app_assoc. }
  assert (∀ w', tasks_of w' = tasks_of w →
            sendToJira jira projectKey taskId assigneeId now' w'
            = (failed message,
               mkWorld (stored_tasks w') (flaskBackendUrl w')
                 (env_FLASK_BACKEND_URL w')
                 (effects w'
                    ++ [JiraCreateIssue (issueBody_of_task projectKey assigneeId t);
                        JiraAddComment (key result)]))) as Hcall'.
  { intros w' Hsame. unfold sendToJira, bind, get_tasks, emit, ret.
    rewrite Hsame, Hfind. simpl. rewrite Hcreate, Hjson, Hok. simpl.
    rewrite Hcomment. by rewrite <- app_assoc. }
  assert (r = (failed message,
               mkWorld (stored_tasks w) (flaskBackendUrl w)
                 (env_FLASK_BACKEND_URL w)
                 (effects w
                    ++ [JiraCreateIssue (issueBody_of_task projectKey assigneeId t);
                        JiraAddComment (key result)]))) as Hr
    by (by apply Hcall).
  subst again. rewrite Hr. cbn [fst snd stored_tasks effects].
  rewrite Hcall' by done. cbn [fst snd effects].
  by rewrite <- app_assoc.
Qed.

Lemma sendToJira_comment_failure_keeps_task_witness :
  let jira := mkJiraApi (create_issue Samples.jira_accepts)
                        (λ _, Threw (str "comment rejected")) in
  let w := Samples.world [Samples.task "task-1" pending] in
  let r := sendToJira jira (str "DNM") (str "task-1") None
             (str "2024-05-02T10:00:00.000Z") w in
  r.1 = failed (str "comment rejected") ∧ stored_tasks r.2 = stored_tasks w.
Proof.
  intros jira w r.
  destruct (sendToJira_comment_failure_keeps_task jira (str "DNM") (str "task-1")
              None (str "2024-05-02T10:00:00.000Z") (str "2024-05-02T10:01:00.000Z")
              w 0 (Samples.task "task-1" pending)
              (mkResponse 201 (Returned (mkIssueResult (str "DNM-7") (str "10007") None)))
              (mkIssueResult (str "DNM-7") (str "10007") None)
              (str "comment rejected")
              eq_refl eq_refl eq_refl eq_refl eq_refl)
    as (Hr & Hs & _).
  split; assumption.
Defined.

(** X6.  In the backend variant, once the tracker has created the issue,
    [sendToJira] answers [success: true] with the key whatever status the
    backend gives to the mark-sent request, a refusal included; only a
    thrown mark-sent request turns the answer into a failure, and then the
    issue has been created all the same. *)
Theorem backend_sendToJira_ignores_mark_sent_status
    (backend : BackendApi) (jira : JiraApi) (projectKey taskId : jstr)
    (assigneeId : option jstr) (w : World) taskResponse task response result :
  get_task backend (get_backendUrl w).1 taskId = Returned taskResponse →
  ok taskResponse = true →
  json taskResponse = Returned task →
  create_issue jira (ForgeBackend.issueBody_of_task projectKey assigneeId task)
    = Returned response →
  ok response = true →
  json response = Returned result →
  let r := ForgeBackend.sendToJira backend jira projectKey taskId assigneeId w in
  effects r.2 = effects w
    ++ [FetchTask taskId;
        JiraCreateIssue (ForgeBackend.issueBody_of_task projectKey assigneeId task);
        PostMarkSent taskId (key result)] ∧
  (∀ markResponse,
     post_mark_sent backend (get_backendUrl w).1 taskId (key result)
       = Returned markResponse →
     success r.1 = true ∧ reply_jiraKey r.1 = Some (key result)) ∧
  (∀ message,
     post_mark_sent backend (get_backendUrl w).1 taskId (key result)
       = Threw message →
     r.1 = failed message).
Proof.
  intros Hget Hokt Hjsont Hcreate Hok Hjson r. subst r.
  unfold ForgeBackend.sendToJira, bind, get_backendUrl, emit, ret in *.
  simpl in *. rewrite Hget, Hokt, Hjsont. simpl.
  rewrite Hcreate, Hjson, Hok. simpl.
  destruct (post_mark_sent backend _ taskId (key result)) as [message | markResponse];
    simpl; rewrite <- !app_assoc; simpl; split_and!; try done.
  - intros message' [= <-]. done.
Qed.

Lemma backend_sendToJira_ignores_mark_sent_status_witness :
  let known := Samples.backendTask "task-1" "Call Sam" in
  let backend :=
    mkBackendApi (get_task (Samples.backend [] known 200))
                 (get_pending (Samples.backend [] known 200))
                 (λ _ _ _, Returned (mkResponse 500 (Returned tt)))
                 (post_decline (Samples.backend [] known 200))
                 (post_restore (Samples.backend [] known 200))
                 (delete_task (Samples.backend [] known 200)) in
  success (ForgeBackend.sendToJira backend Samples.jira_accepts (str "DNM")
             (str "task-1") None (Samples.world [])).1 = true.
Proof.
  intros known backend.
  destruct (backend_sendToJira_ignores_mark_sent_status backend Samples.jira_accepts
              (str "DNM") (str "task-1") None (Samples.world [])
              (mkResponse 200 (Returned known)) known
              (mkResponse 201 (Returned (mkIssueResult (str "DNM-7") (str "10007") None)))
              (mkIssueResult (str "DNM-7") (str "10007") None)
              eq_refl eq_refl eq_refl eq_refl eq_refl eq_refl)
    as (_ & Hreturned & _).
  apply (Hreturned (mkResponse 500 (Returned tt)) eq_refl).
Defined.

(** X7.  [sendToJira] never reaches the tracker for a task it cannot find.
    The storage variant answers 'Task not found' without any request or
    write when no stored task has the id; the backend variant answers
    'Task not found' when the backend's answer to the task fetch is outside
    200-299 and 'Failed to fetch task' when the fetch throws, and in both
    cases the fetch is its only request. *)
Theorem sendToJira_unknown_task_reaches_no_tracker
    (backend : BackendApi) (jira : JiraApi) (projectKey taskId : jstr)
    (assigneeId : option jstr) (now : jstr) (w : World) :
  ((∀ t, t ∈ tasks_of w → id t ≠ taskId) →
   sendToJira jira projectKey taskId assigneeId now w
   = (failed (str "Task not found"), w)) ∧
  (∀ taskResponse,
     get_task backend (get_backendUrl w).1 taskId = Returned taskResponse →
     ok taskResponse = false →
     let r := ForgeBackend.sendToJira backend jira projectKey taskId assigneeId w in
     r.1 = failed (str "Task not found") ∧
     effects r.2 = effects w ++ [FetchTask taskId]) ∧
  (∀ message,
     get_task backend (get_backendUrl w).1 taskId = Threw message →
     let r := ForgeBackend.sendToJira backend jira projectKey taskId assigneeId w in
     r.1 = failed (str "Failed to fetch task") ∧
     effects r.2 = effects w ++ [FetchTask taskId]).
Proof.
  split_and!.
  - intros Hall. apply findTask_absent in Hall.
    unfold sendToJira, bind, get_tasks. by rewrite Hall.
  - intros taskResponse Hget Hok.
    unfold ForgeBackend.sendToJira, bind, get_backendUrl, emit, ret in *.
    simpl in *. by rewrite Hget, Hok.
  - intros message Hget.
    unfold ForgeBackend.sendToJira, bind, get_backendUrl, emit, ret in *.
    simpl in *. by rewrite Hget.
Qed.

Lemma sendToJira_unknown_task_reaches_no_tracker_witness :
  let w := Samples.world [Samples.task "task-1" pending] in
  sendToJira Samples.jira_accepts (str "DNM") (str "task-404") None
    (str "2024-05-02T10:00:00.000Z") w
  = (failed (str "Task not found"), w).
Proof.
  intros w.
  apply (sendToJira_unknown_task_reaches_no_tracker
           (Samples.backend [] (Samples.backendTask "task-1" "Call Sam") 200)
           Samples.jira_accepts (str "DNM") (str "task-404") None
           (str "2024-05-02T10:00:00.000Z") w).
  intros t Ht. apply list_elem_of_In in Ht. simpl in Ht.
  destruct Ht as [<- | []]. discriminate.
Defined.

End StorageMoreFacts.

(** ** Synchronising with the backend, continued *)

Section SyncMoreFacts.

Import Forge ForgeMore.

Implicit Types (w : World) (tasks : list Task) (t : Task).

Local Arguments findTask : simpl never.

(** The stored list after a sync whose listing succeeded. *)
Lemma sync_listed_tasks backend (now : jstr) w response backendTasks :
  get_pending backend (get_backendUrl w).1 = Returned response →
  ok response = true →
  json response = Returned backendTasks →
  tasks_of (syncFromBackend backend now w).2 =
    reverse (localTask now <$>
      filter (λ bt, bt_id bt ∉@{gset jstr} list_to_set (id <$> tasks_of w))
             backendTasks) ++ tasks_of w.
Proof.
  intros Hget Hok Hjson.
  pose proof (sync_listed backend now w _ _ Hget Hok Hjson) as Hsync.
  cbv zeta in Hsync. by rewrite Hsync.
Qed.

(** The stored list after a sync whose listing failed. *)
Lemma sync_not_listed_tasks backend (now : jstr) w :
  match get_pending backend (get_backendUrl w).1 with
  | Threw _ => True
  | Returned response =>
      ok response = false ∨ ∃ message, json response = Threw message
  end →
  tasks_of (syncFromBackend backend now w).2 = tasks_of w.
Proof.
  intros Hnot. destruct (sync_not_listed backend now w Hnot) as (_ & Hsame & _).
  unfold tasks_of. by rewrite Hsame.
Qed.

(** Looking an id up behind records that do not have it. *)
Lemma status_behind (i : jstr) (front tasks : list Task) :
  (∀ t, t ∈ front → id t ≠ i) →
  status_found (findTask i (front ++ tasks)) = status_found (findTask i tasks).
Proof.
  intros Hfront. unfold findTask.
  rewrite list_find_app_r by (by apply findTask_absent).
  by destruct (list_find _ tasks) as [[k t]|].
Qed.

(** Looking an id up that a pending record in front has. *)
Lemma status_in_front (i : jstr) (front tasks : list Task) t :
  Forall (λ t, status t = pending) front →
  t ∈ front → id t = i →
  status_found (findTask i (front ++ tasks)) = Some pending.
Proof.
  intros Hpending Hin Hid.
  destruct (list_find_elem_of (λ t, id t = i) front t Hin Hid) as [[k x] Hfind].
  unfold findTask. rewrite (list_find_app_l _ _ _ _ _ Hfind). simpl.
  apply list_find_Some in Hfind as (Hk & _ & _).
  rewrite Forall_forall in Hpending. f_equal. apply Hpending.
  by eapply list_elem_of_lookup_2.
Qed.

Lemma found_is_stored (i : jstr) w :
  is_Some (status_of i w) → i ∈ id <$> tasks_of w.
Proof.
  unfold status_of. intros [s Hs].
  destruct (findTask i (tasks_of w)) as [[k t]|] eqn:Hfind; [|done].
  apply list_find_Some in Hfind as (Hk & <- & _).
  apply list_elem_of_fmap_2. by eapply list_elem_of_lookup_2.
Qed.

(** X8.  A sync never changes the status of a task that is already
    stored: whatever the backend answers, the status found under an id
    that Forge storage has is the same after [syncFromBackend], so a
    declined or sent task is not turned back to pending by a listing that
    still contains it. *)
Theorem syncFromBackend_keeps_known_status
    (backend : BackendApi) (now : jstr) (w : World) (taskId : jstr) :
  is_Some (status_of taskId w) →
  status_of taskId (syncFromBackend backend now w).2 = status_of taskId w.
Proof.
  intros Hknown%found_is_stored. unfold status_of.
  destruct (listing_cases backend w)
    as [(response & backendTasks & Hget & Hok & Hjson) | Hnot].
  - rewrite (sync_listed_tasks backend now w _ _ Hget Hok Hjson).
    apply status_behind. intros t Ht. rewrite elem_of_reverse in Ht.
    apply list_elem_of_fmap in Ht as (bt & -> & Hbt).
    apply list_elem_of_filter in Hbt as [Hfresh _].
    rewrite localTask_id. intros Heq. apply Hfresh.
    apply elem_of_list_to_set. by rewrite Heq.
  - by rewrite (sync_not_listed_tasks backend now w Hnot).
Qed.

Lemma syncFromBackend_keeps_known_status_witness :
  let w := Samples.world [Samples.task "task-1" declined] in
  let backend :=
    Samples.backend [Samples.backendTask "task-1" "Call Sam"]
                    (Samples.backendTask "task-1" "Call Sam") 200 in
  status_of (str "task-1")
    (syncFromBackend backend (str "2024-05-02T10:00:00.000Z") w).2 = Some declined.
Proof.
  intros w backend.
  rewrite (syncFromBackend_keeps_known_status backend
             (str "2024-05-02T10:00:00.000Z") w (str "task-1")).
  - reflexivity.
  - exists declined. reflexivity.
Defined.

(** X9.  [deleteTask] does not reach the backend: its only effect is the
    one [storage.set] of the filtered list, with no request of any kind.
    So a deleted task comes back: when the backend still lists a task with
    the deleted id, the next [syncFromBackend] stores it again, as
    pending, whatever its status was before the deletion. *)
Theorem deleted_task_is_imported_again
    (backend : BackendApi) (now : jstr) (w : World) (taskId : jstr)
    response backendTasks bt :
  get_pending backend (get_backendUrl w).1 = Returned response →
  ok response = true →
  json response = Returned backendTasks →
  bt ∈ backendTasks →
  bt_id bt = taskId →
  let deleted := (deleteTask taskId w).2 in
  effects deleted = effects w ++ [StorageSetTasks (tasks_of deleted)] ∧
  flaskBackendUrl deleted = flaskBackendUrl w ∧
  status_of taskId deleted = None ∧
  status_of taskId (syncFromBackend backend now deleted).2 = Some pending.
Proof.
  intros Hget Hok Hjson Hbt Hid deleted.
  split; [reflexivity|]. split; [reflexivity|].
  assert (tasks_of deleted = filter (λ t, id t ≠ taskId) (tasks_of w)) as Hdeleted
    by apply deleteTask_stores.
  assert (taskId ∉ id <$> tasks_of deleted) as Hgone.
  { rewrite Hdeleted. intros (t & Ht & Hin)%list_elem_of_fmap.
    apply list_elem_of_filter in Hin as [Hne _]. by apply Hne. }
  split.
  - unfold status_of.
    rewrite findTask_absent; [done|].
    intros t Ht Heq. apply Hgone. rewrite <- Heq. by apply list_elem_of_fmap_2.
  - unfold status_of.
    rewrite (sync_listed_tasks backend now deleted response backendTasks)
      by done.
    apply (status_in_front _ _ _ (localTask now bt)).
    + apply Forall_forall. intros t Ht. rewrite elem_of_reverse in Ht.
      apply list_elem_of_fmap in Ht as (bt' & -> & _). apply localTask_status.
    + rewrite elem_of_reverse. apply list_elem_of_fmap_2.
      apply list_elem_of_filter. split; [|done].
      rewrite Hid. intros Hin. apply Hgone. by apply elem_of_list_to_set in Hin.
    + by rewrite localTask_id.
Qed.

Lemma deleted_task_is_imported_again_witness :
  let w := Samples.world [Samples.task "task-1" sent] in
  let backend :=
    Samples.backend [Samples.backendTask "task-1" "Call Sam"]
                    (Samples.backendTask "task-1" "Call Sam") 200 in
  status_of (str "task-1")
    (syncFromBackend backend (str "2024-05-02T10:00:00.000Z")
       (deleteTask (str "task-1") w).2).2 = Some pending.
Proof.
  intros w backend.
  apply (deleted_task_is_imported_again backend (str "2024-05-02T10:00:00.000Z") w
           (str "task-1")
           (mkResponse 200 (Returned [Samples.backendTask "task-1" "Call Sam"]))
           [Samples.backendTask "task-1" "Call Sam"]
           (Samples.backendTask "task-1" "Call Sam")
           eq_refl eq_refl eq_refl).
  - apply list_elem_of_here.
  - reflexivity.
Defined.

Lemma or_else_nonempty (x : option jstr) (y : jstr) : y ≠ [] → or_else x y ≠ [].
Proof. by destruct x as [[|c s]|]. Qed.

(** X10.  Every record that [syncFromBackend] adds is complete enough to
    be rendered and sent: its title, source and priority are never empty
    (they fall back to the start of the text or 'Untitled', to 'web' and
    to 'medium'), a title taken from the text has at most 80 code units,
    and it is pending, marked as created via 'donotmiss-flask', with no
    issue key and no decline stamp. *)
Theorem syncFromBackend_adds_complete_records
    (backend : BackendApi) (now : jstr) (w : World) (t : Task) :
  t ∈ tasks_of (syncFromBackend backend now w).2 →
  t ∈ tasks_of w ∨
  (∃ bt, t = localTask now bt ∧
         (truthy (bt_title bt) = false → length (title t) ≤ 80)) ∧
  title t ≠ [] ∧ source t ≠ [] ∧ priority t ≠ [] ∧
  status t = pending ∧ createdVia t = str "donotmiss-flask" ∧
  jiraKey t = None ∧ declinedAt t = None.
Proof.
  destruct (listing_cases backend w)
    as [(response & backendTasks & Hget & Hok & Hjson) | Hnot].
  - rewrite (sync_listed_tasks backend now w _ _ Hget Hok Hjson).
    intros [Hnew | Hold]%elem_of_app; [right | by left].
    rewrite elem_of_reverse in Hnew.
    apply list_elem_of_fmap in Hnew as (bt & -> & _).
    split_and!; try done; try (by apply or_else_nonempty).
    exists bt. split; [done|]. intros Hno.
    assert (length (str "Untitled") ≤ 80) as Hdefault by (vm_compute; lia).
    cbn [title localTask]. unfold or_opt. rewrite Hno.
    destruct (bt_text bt) as [text|]; [|exact Hdefault].
    cbn [fmap option_fmap option_map].
    destruct (substring0 80 text) as [|c s] eqn:Hcut; [exact Hdefault|].
    cbn [or_else]. rewrite <- Hcut. unfold substring0. rewrite length_take. lia.
  - rewrite (sync_not_listed_tasks backend now w Hnot). by left.
Qed.

Lemma syncFromBackend_adds_complete_records_witness :
  let backend :=
    Samples.backend [Samples.backendTask "task-2" "Book flight by Friday"]
                    (Samples.backendTask "task-2" "Book flight by Friday") 200 in
  let t := localTask (str "2024-05-02T10:00:00.000Z")
             (Samples.backendTask "task-2" "Book flight by Friday") in
  title t = str "Book flight by Friday" ∧ priority t ≠ [].
Proof.
  intros backend t.
  destruct (syncFromBackend_adds_complete_records backend
              (str "2024-05-02T10:00:00.000Z") (Samples.world []) t)
    as [Hold | (_ & _ & _ & Hp & _)].
  - apply list_elem_of_here.
  - apply elem_of_nil in Hold. destruct Hold.
  - split; [reflexivity | exact Hp].
Defined.

Lemma filter_everything {A} (P : A → Prop) `{∀ x, Decision (P x)} (l : list A) :
  (∀ x, x ∈ l → P x) → filter P l = l.
Proof.
  induction l as [|x l IH]; intros Hall; [done|].
  rewrite filter_cons_True by (apply Hall; left).
  f_equal. apply IH. intros y Hy. apply Hall. by right.
Qed.

(** X11.  After [clearTasks] nothing is stored, and the next successful
    [syncFromBackend] imports the whole listing: every listed task, in
    reverse order of the listing, and [added] and [total] are both the
    length of the listing. *)
Theorem clearTasks_then_sync_imports_all
    (backend : BackendApi) (now : jstr) (w : World) response backendTasks :
  get_pending backend (get_backendUrl w).1 = Returned response →
  ok response = true →
  json response = Returned backendTasks →
  let cleared := (clearTasks w).2 in
  let r := syncFromBackend backend now cleared in
  tasks_of cleared = [] ∧
  success r.1 = true ∧
  tasks_of r.2 = reverse (localTask now <$> backendTasks) ∧
  added r.1 = Some (length backendTasks) ∧
  total r.1 = Some (length backendTasks).
Proof.
  intros Hget Hok Hjson cleared r.
  assert (tasks_of cleared = []) as Hcleared by reflexivity.
  pose proof (sync_listed backend now cleared _ _ Hget Hok Hjson) as Hsync.
  cbv zeta in Hsync. fold r in Hsync.
  rewrite Hcleared, app_nil_r in Hsync.
  rewrite filter_everything in Hsync
    by (intros bt _; simpl; apply not_elem_of_empty).
  rewrite Hsync. cbn [fst snd success added total]. rewrite tasks_of_stored.
  by rewrite length_reverse, length_fmap.
Qed.

Lemma clearTasks_then_sync_imports_all_witness :
  let w := Samples.world [Samples.task "task-1" declined] in
  let listing := [Samples.backendTask "task-1" "Call Sam";
                  Samples.backendTask "task-2" "Book flight by Friday"] in
  let backend := Samples.backend listing (Samples.backendTask "task-1" "Call Sam") 200 in
  added (syncFromBackend backend (str "2024-05-02T10:00:00.000Z")
           (clearTasks w).2).1 = Some 2.
Proof.
  intros w listing backend.
  apply (clearTasks_then_sync_imports_all backend (str "2024-05-02T10:00:00.000Z") w
           (mkResponse 200 (Returned listing)) listing eq_refl eq_refl eq_refl).
Defined.

End SyncMoreFacts.

(** ** Settings, views and handlers of the review surface *)

Section ReviewFacts.

Import Forge ForgeMore Review.

Implicit Types (w : World) (tasks : list Task) (t : Task).

Local Arguments findTask : simpl never.

(** X12.  The backend URL that [setBackendUrl] stores is the one
    [getBackendUrl] answers and every backend request uses afterwards,
    unless it is the empty string: then the setting counts as absent and
    the URL falls back to the environment's [FLASK_BACKEND_URL] or, when
    that is absent or empty too, to the built-in address.  The stored
    tasks are not touched. *)
Theorem setBackendUrl_then_getBackendUrl (url : jstr) (w : World) :
  let w' := (setBackendUrl url w).2 in
  (url ≠ [] → (getBackendUrl w').1 = url) ∧
  (url = [] → (getBackendUrl w').1 = FLASK_BACKEND_URL w) ∧
  (truthy (env_FLASK_BACKEND_URL w) = false →
   FLASK_BACKEND_URL w = str "https://donotmiss-backend.onrender.com") ∧
  (∀ env, env ≠ [] → env_FLASK_BACKEND_URL w = Some env → FLASK_BACKEND_URL w = env) ∧
  stored_tasks w' = stored_tasks w ∧ effects w' = effects w.
Proof.
  split_and!; try done.
  - by destruct url.
  - by intros ->.
  - unfold FLASK_BACKEND_URL. by destruct (env_FLASK_BACKEND_URL w) as [[|c s]|].
  - intros env Hne Henv. unfold FLASK_BACKEND_URL. rewrite Henv. by destruct env.
Qed.

Lemma setBackendUrl_then_getBackendUrl_witness :
  (getBackendUrl (setBackendUrl (str "https://tunnel.example/") (Samples.world [])).2).1
    = str "https://tunnel.example/" ∧
  (getBackendUrl (setBackendUrl [] (Samples.world [])).2).1
    = str "https://donotmiss-backend.onrender.com".
Proof.
  split.
  - apply (setBackendUrl_then_getBackendUrl (str "https://tunnel.example/")
             (Samples.world [])). discriminate.
  - destruct (setBackendUrl_then_getBackendUrl [] (Samples.world []))
      as (_ & Hempty & Hdefault & _).
    rewrite (Hempty eq_refl). apply Hdefault. reflexivity.
Defined.

Lemma shows_all t : shows (str "all") t = negb (bool_decide (status t = declined)).
Proof. reflexivity. Qed.

Lemma shows_pending t : shows (str "pending") t = bool_decide (status t = pending).
Proof. reflexivity. Qed.

Lemma shows_sent t : shows (str "sent") t = bool_decide (status t = sent).
Proof. reflexivity. Qed.

Lemma shows_declined t : shows (str "declined") t = bool_decide (status t = declined).
Proof. reflexivity. Qed.

Lemma shows_other (view : jstr) t :
  view ≠ str "all" → view ≠ str "pending" → view ≠ str "sent" →
  view ≠ str "declined" → shows view t = true.
Proof.
  intros H1 H2 H3 H4. unfold shows.
  by rewrite !bool_decide_eq_false_2.
Qed.

(** X13.  The views of the review surface split the stored list by
    status: the Inbox, Sent and Declined counts add up to the number of
    tasks, the "All" view is the list without its declined tasks, in
    order, so its count is Inbox plus Sent, a task is under "All" exactly
    when it is under Inbox or under Sent, and a filter value that is none
    of the four shows every task. *)
Theorem views_split_by_status (tasks : list Task) :
  pendingCount tasks + sentCount tasks + declinedCount tasks = length tasks ∧
  allCount tasks = pendingCount tasks + sentCount tasks ∧
  filteredTasks (str "all") tasks = filter (λ t, status t ≠ declined) tasks ∧
  length (filteredTasks (str "pending") tasks) = pendingCount tasks ∧
  length (filteredTasks (str "sent") tasks) = sentCount tasks ∧
  length (filteredTasks (str "declined") tasks) = declinedCount tasks ∧
  (∀ t, t ∈ filteredTasks (str "all") tasks ↔
        t ∈ filteredTasks (str "pending") tasks ∨
        t ∈ filteredTasks (str "sent") tasks) ∧
  (∀ view, view ≠ str "all" → view ≠ str "pending" → view ≠ str "sent" →
           view ≠ str "declined" → filteredTasks view tasks = tasks).
Proof.
  unfold pendingCount, sentCount, declinedCount, allCount, filteredTasks.
  split_and!.
  - induction tasks as [|t tasks IH]; [done|].
    rewrite !filter_cons. destruct (status t); simpl in *; lia.
  - induction tasks as [|t tasks IH]; [done|].
    rewrite !filter_cons. destruct (status t); simpl in *; lia.
  - apply list_filter_iff. intros t. rewrite shows_all.
    destruct (status t); simpl; split; done.
  - f_equal. apply list_filter_iff. intros t. rewrite shows_pending.
    by rewrite bool_decide_eq_true.
  - f_equal. apply list_filter_iff. intros t. rewrite shows_sent.
    by rewrite bool_decide_eq_true.
  - f_equal. apply list_filter_iff. intros t. rewrite shows_declined.
    by rewrite bool_decide_eq_true.
  - intros t. rewrite !list_elem_of_filter, shows_all, shows_pending, shows_sent.
    destruct (status t); simpl; split; try tauto; intros [[? ?]|[? ?]]; done.
  - intros view H1 H2 H3 H4. induction tasks as [|t tasks IH]; [done|].
    rewrite filter_cons_True by (by apply shows_other). by f_equal.
Qed.

(** X14.  Declining takes a task out of the default view: when the stored
    ids are unique, after [declineTask] no task with the given id is shown
    under "all" or under "pending", and when a task with the id was stored
    it is shown under "declined", with the same id, title and description
    as before.  The other tasks are shown under "all" exactly as before
    the call. *)
Theorem declineTask_hides_the_task (taskId now : jstr) (w : World) :
  Dashboard.unique_ids w →
  let after := tasks_of (declineTask taskId now w).2 in
  (∀ t, id t = taskId →
        (t ∉ filteredTasks (str "all") after) ∧
        (t ∉ filteredTasks (str "pending") after)) ∧
  (∀ k t, findTask taskId (tasks_of w) = Some (k, t) →
          mark_declined now t ∈ filteredTasks (str "declined") after ∧
          id (mark_declined now t) = taskId ∧
          title (mark_declined now t) = title t ∧
          description (mark_declined now t) = description t) ∧
  (∀ t, id t ≠ taskId →
        t ∈ filteredTasks (str "all") after ↔
        t ∈ filteredTasks (str "all") (tasks_of w)).
Proof.
  intros Hunique after. subst after. rewrite declineTask_stores.
  unfold filteredTasks.
  destruct (findTask taskId (tasks_of w)) as [[k t0]|] eqn:Hfind.
  - assert (NoDup (id <$> alter (mark_declined now) k (tasks_of w))) as Hdup
      by (by rewrite ids_alter).
    pose proof (findTask_alter (mark_declined now) taskId _ k t0 eq_refl Hfind)
      as Hfound.
    pose proof (findTask_found _ _ _ _ Hfind) as [Hk Hid0].
    split_and!.
    + intros t Hid. rewrite !list_elem_of_filter, shows_all, shows_pending.
      assert (t ∈ alter (mark_declined now) k (tasks_of w) → status t = declined)
        as Hdeclined.
      { intros Hin. destruct (unique_found _ _ Hdup Hin) as [k' Hfound'].
        rewrite Hid, Hfound in Hfound'. by simplify_eq. }
      split; intros [Hshown Hin]; rewrite (Hdeclined Hin) in Hshown; done.
    + intros k' t' [= <- <-]. split_and!; try done.
      apply list_elem_of_filter. split; [done|].
      apply list_elem_of_lookup. exists k.
      by rewrite list_lookup_alter_eq, Hk.
    + intros t Hid. rewrite !list_elem_of_filter.
      rewrite !list_elem_of_lookup.
      split; intros [Hshown [j Hj]]; (split; [done|]); exists j.
      * destruct (decide (j = k)) as [-> | Hne].
        -- rewrite list_lookup_alter_eq, Hk in Hj. by simplify_eq/=.
        -- by rewrite list_lookup_alter_ne in Hj.
      * destruct (decide (j = k)) as [-> | Hne].
        -- rewrite Hk in Hj. exfalso. apply Hid. by simplify_eq.
        -- by rewrite list_lookup_alter_ne.
  - apply list_find_None in Hfind. rewrite Forall_forall in Hfind.
    split_and!; [|done|done].
    intros t Hid. rewrite !list_elem_of_filter.
    split; intros [_ Hin]; by apply (Hfind t Hin).
Qed.

Lemma views_split_by_status_witness :
  let tasks := [Samples.task "task-1" declined; Samples.task "task-2" sent] in
  filteredTasks (str "archive") tasks = tasks.
Proof.
  intros tasks.
  apply (views_split_by_status tasks); discriminate.
Defined.

Lemma declineTask_hides_the_task_witness :
  let w := Samples.world [Samples.task "task-1" pending; Samples.task "task-2" sent] in
  let after := tasks_of (declineTask (str "task-1") (str "2024-05-02T10:00:00.000Z") w).2 in
  mark_declined (str "2024-05-02T10:00:00.000Z") (Samples.task "task-1" pending)
    ∉ filteredTasks (str "all") after.
Proof.
  intros w after.
  destruct (declineTask_hides_the_task (str "task-1")
              (str "2024-05-02T10:00:00.000Z") w) as (Hhidden & _).
  - unfold Dashboard.unique_ids. apply NoDup_cons. split.
    + intros Hin. apply list_elem_of_In in Hin. simpl in Hin.
      destruct Hin as [Heq | []]. discriminate Heq.
    + apply NoDup_singleton.
  - apply Hhidden. reflexivity.
Defined.

End ReviewFacts.

(** ** Mirroring the tracker's status *)

Section MirrorFacts.

Import Forge Mirror.

Lemma mirror_keeps (get_issue : jstr → Outcome (Response Issue)) (task : ListedTask) :
  fields (mirror get_issue task) = fields task ∧
  listed_status (mirror get_issue task) = listed_status task ∧
  listed_jiraKey (mirror get_issue task) = listed_jiraKey task ∧
  (listed_jiraStatus (mirror get_issue task) = listed_jiraStatus task ∨
   listed_status task = Some (str "sent") ∧
   truthy (listed_jiraKey task) = true ∧
   ∃ name, name ≠ [] ∧ listed_jiraStatus (mirror get_issue task) = Some name).
Proof.
  unfold mirror.
  destruct (listed_status task) as [s|] eqn:Hs; [|by split_and!; [..|left]].
  destruct (listed_jiraKey task) as [[|c k]|] eqn:Hk;
    [by split_and!; [..|left] | | by split_and!; [..|left]].
  destruct (bool_decide (s = str "sent")) eqn:Hsent;
    [|by split_and!; [..|left]].
  apply bool_decide_eq_true in Hsent as ->.
  destruct (get_issue (c :: k)) as [? | jiraResponse];
    [by split_and!; [..|left]|].
  destruct (ok jiraResponse); [|by split_and!; [..|left]].
  destruct (json jiraResponse) as [? | issue]; [by split_and!; [..|left]|].
  simpl. split_and!; [done..|]. right. split_and!; [done..|].
  eexists. split; [|done]. by destruct (status_name issue) as [[|? ?]|].
Qed.

(** X15.  When the backend lists its tasks, [syncTasks] always answers
    with success and with as many tasks, in the same order, and writes
    nothing to Forge storage.  No task loses or changes its backend
    fields, its status or its issue key; the only field that can change
    is [jiraStatus], only for a sent task with an issue key, and only to a
    non-empty name.  A tracker that throws on every request leaves the
    listing as it came. *)
Theorem syncTasks_only_mirrors_jiraStatus
    (get_all : jstr → Outcome (Response (list ListedTask)))
    (get_issue : jstr → Outcome (Response Issue))
    (w : World) response (tasks : list ListedTask) :
  get_all (get_backendUrl w).1 = Returned response →
  ok response = true →
  json response = Returned tasks →
  ∃ mirrored,
    syncTasks get_all get_issue w = (Synced mirrored, w) ∧
    Forall2 (λ task task',
               fields task' = fields task ∧
               listed_status task' = listed_status task ∧
               listed_jiraKey task' = listed_jiraKey task ∧
               (listed_jiraStatus task' = listed_jiraStatus task ∨
                listed_status task = Some (str "sent") ∧
                truthy (listed_jiraKey task) = true ∧
                ∃ name, name ≠ [] ∧ listed_jiraStatus task' = Some name))
            tasks mirrored ∧
    ((∀ issueKey, ∃ message, get_issue issueKey = Threw message) →
     mirrored = tasks).
Proof.
  intros Hget Hok Hjson. exists (mirror get_issue <$> tasks). split_and!.
  - unfold syncTasks, bind, get_backendUrl, ret in *. simpl in *.
    by rewrite Hget, Hok, Hjson.
  - apply Forall2_fmap_r, Forall_Forall2_diag, Forall_forall.
    intros task _. apply mirror_keeps.
  - intros Hthrows. clear Hget Hok Hjson.
    induction tasks as [|task tasks' IH]; [done|].
    rewrite fmap_cons. f_equal; [|done].
    unfold mirror. destruct (listed_status task) as [s|]; [|done].
    destruct (listed_jiraKey task) as [[|c k]|]; [done | | done].
    destruct (bool_decide _); [|done].
    by destruct (Hthrows (c :: k)) as [message ->].
Qed.

Lemma syncTasks_only_mirrors_jiraStatus_witness :
  let sent_task :=
    mkListedTask (Samples.backendTask "task-1" "Call Sam")
                 (Some (str "sent")) (Some (str "DNM-7")) None in
  let get_all := λ _ : jstr, Returned (mkResponse 200 (Returned [sent_task])) in
  let get_issue := λ _ : jstr, @Threw (Response Issue) (str "network error") in
  syncTasks get_all get_issue (Samples.world [])
  = (Synced [sent_task], Samples.world []).
Proof.
  intros sent_task get_all get_issue.
  destruct (syncTasks_only_mirrors_jiraStatus get_all get_issue (Samples.world [])
              (mkResponse 200 (Returned [sent_task])) [sent_task]
              eq_refl eq_refl eq_refl) as (mirrored & Hsync & _ & Hsame).
  rewrite Hsync, Hsame; [reflexivity|].
  intros issueKey. by exists (str "network error").
Defined.

End MirrorFacts.

(** ** Trimming and the generated title, continued *)

Section TrimFacts.

Implicit Types s : jstr.

Lemma trimStart_head s c : head (trimStart s) = Some c → is_white_space c = false.
Proof.
  induction s as [|b s IH]; simpl; [done|].
  destruct (is_white_space b) eqn:Hb; [done|]. simpl. by intros [= <-].
Qed.

Lemma trimStart_blank s : Forall (λ c, is_white_space c = true) s → trimStart s = [].
Proof. induction 1 as [|c s Hc _ IH]; simpl; [done|]. by rewrite Hc. Qed.

Lemma trimStart_suffix s : ∃ blank, s = blank ++ trimStart s.
Proof.
  induction s as [|b s [blank IH]]; simpl; [by exists []|].
  destruct (is_white_space b); [|by exists []].
  exists (b :: blank). simpl. by f_equal.
Qed.

Lemma trimEnd_prefix s : ∃ blank, s = trimEnd s ++ blank.
Proof.
  unfold trimEnd. destruct (trimStart_suffix (reverse s)) as [blank Hblank].
  exists (reverse blank). rewrite <- reverse_app, <- Hblank.
  by rewrite reverse_involutive.
Qed.

Lemma trimEnd_last s c : last (trimEnd s) = Some c → is_white_space c = false.
Proof. unfold trimEnd. rewrite last_reverse. apply trimStart_head. Qed.

Lemma trimEnd_head s c : head (trimEnd s) = Some c → head s = Some c.
Proof.
  destruct (trimEnd_prefix s) as [blank Hblank]. intros Hhead.
  rewrite Hblank. by destruct (trimEnd s).
Qed.

Lemma trim_is_tight s : tight (trim s).
Proof.
  split; intros c Hc.
  - apply trimEnd_head in Hc. by eapply trimStart_head.
  - by eapply trimEnd_last.
Qed.

Lemma trim_blank s : Forall (λ c, is_white_space c = true) s → trim s = [].
Proof. intros Hblank. unfold trim. by rewrite trimStart_blank. Qed.

(** X16.  The title generated on "add" has at most 53 code units and at
    most 3 more than the text, and it never starts with white space.  For
    a text of at most 50 code units it does not end with white space
    either; for a longer one it is a string without white space at either
    end followed by '...'.  A text of white space only gives the empty
    title, or the bare '...' when it is longer than 50 code units. *)
Theorem generateTitle_is_bounded_and_trimmed (text : jstr) :
  length (Popup.generateTitle text) ≤ 53 ∧
  length (Popup.generateTitle text) ≤ length text + 3 ∧
  (∀ c, head (Popup.generateTitle text) = Some c → is_white_space c = false) ∧
  (length text ≤ 50 → tight (Popup.generateTitle text)) ∧
  (50 < length text →
   ∃ kept, tight kept ∧ Popup.generateTitle text = kept ++ Popup.ellipsis) ∧
  (Forall (λ c, is_white_space c = true) text →
   Popup.generateTitle text = if decide (50 < length text) then Popup.ellipsis else []).
Proof.
  unfold Popup.generateTitle, substring0.
  assert (length Popup.ellipsis = 3) as Hdots by reflexivity.
  destruct (decide (50 < length text)) as [Hlong | Hshort].
  - pose proof (trim_length (take 50 text)) as Htrim.
    rewrite length_take in Htrim.
    split_and!.
    + rewrite length_app. lia.
    + rewrite length_app. lia.
    + intros c. destruct (trim (take 50 text)) as [|b kept] eqn:Hkept.
      * simpl. by intros [= <-].
      * simpl. intros [= <-].
        apply (proj1 (trim_is_tight (take 50 text)) b). by rewrite Hkept.
    + lia.
    + intros _. exists (trim (take 50 text)). split; [apply trim_is_tight | done].
    + intros Hblank. rewrite trim_blank; [done|]. by apply Forall_take.
  - pose proof (trim_length text) as Htrim.
    split_and!; try lia.
    + apply trim_is_tight.
    + intros _. apply trim_is_tight.
    + intros Hblank. by apply trim_blank.
Qed.

Lemma generateTitle_is_bounded_and_trimmed_witness :
  Popup.generateTitle (str "   ") = [] ∧
  tight (Popup.generateTitle (str "  Call Sam  ")).
Proof.
  destruct (generateTitle_is_bounded_and_trimmed (str "   "))
    as (_ & _ & _ & _ & _ & Hblank).
  destruct (generateTitle_is_bounded_and_trimmed (str "  Call Sam  "))
    as (_ & _ & _ & Htight & _).
  split.
  - rewrite Hblank; [reflexivity|]. repeat constructor.
  - apply Htight. vm_compute. lia.
Defined.

End TrimFacts.

(** ** Capture and submission in the background script *)

Section ExtensionFacts.

Import Forge Extension.

(** X17.  A context-menu click hands the selection over exactly once, or
    not at all.  For the extension's own menu item and a non-empty
    selection the draft carries the trimmed selection and the classified
    source, and it goes to the page's modal when the ping was answered
    with [pong], and otherwise into [captureTask], followed by the opening
    of the capture window (which the handler never reaches where there is
    no [screen] to read the width from).  For any other menu item or an
    empty selection the handler does nothing, not even the ping. *)
Theorem capture_click_hands_over_once
    (menuItemId : jstr) (selectionText tab_url tab_title : option jstr)
    (ping : Outcome (option bool)) (screen_width : option Z) :
  let data := mkTaskData (trim (default [] selectionText))
                (Classifier.detectSource tab_url) tab_url tab_title in
  let r := onClicked menuItemId selectionText tab_url tab_title ping screen_width in
  tight (data_text data) ∧
  (menuItemId = str "donotmiss-capture" → truthy selectionText = true →
   (ping = Returned (Some true) → r = (Returned tt, [Ping; ShowCaptureModal data])) ∧
   (ping ≠ Returned (Some true) →
    (∀ width, screen_width = Some width →
       r = (Returned tt,
            [Ping; StoreCaptureTask data; CreateWindow (centred width)]) ∧
       (width - 400 ≤ 2 * centred width ≤ width - 399)%Z) ∧
    (screen_width = None →
       r.2 = [Ping; StoreCaptureTask data] ∧ ∃ message, r.1 = Threw message))) ∧
  (menuItemId ≠ str "donotmiss-capture" ∨ truthy selectionText = false →
   r = (Returned tt, [])).
Proof.
  intros data r. split_and!.
  - apply trim_is_tight.
  - intros -> Hsel. subst r. unfold onClicked.
    rewrite bool_decide_eq_true_2 by done. rewrite Hsel. simpl. split.
    + by intros ->.
    + intros Hping.
      assert (contentScriptReady ping = false) as ->.
      { destruct ping as [?|[[]|]]; done. }
      split.
      * intros width ->. split; [done|]. unfold centred.
        pose proof (Z.div_mod (width - 400 + 1) 2 ltac:(lia)).
        pose proof (Z.mod_pos_bound (width - 400 + 1) 2 ltac:(lia)). lia.
      * intros ->. split; [done|]. by eexists.
  - subst r. unfold onClicked. intros [Hitem | Hsel].
    + by rewrite bool_decide_eq_false_2.
    + rewrite Hsel. by rewrite andb_false_r.
Qed.

Lemma capture_click_hands_over_once_witness :
  let r := onClicked (str "donotmiss-capture") (Some (str " Book flight by Friday "))
             (Some (str "https://app.slack.com/client/T1")) (Some (str "Slack"))
             (Threw (str "Could not establish connection")) (Some 1920%Z) in
  r = (Returned tt,
       [Ping;
        StoreCaptureTask
          (mkTaskData (str "Book flight by Friday") Classifier.chat
             (Some (str "https://app.slack.com/client/T1")) (Some (str "Slack")));
        CreateWindow 760]).
Proof.
  intros r.
  destruct (capture_click_hands_over_once (str "donotmiss-capture")
              (Some (str " Book flight by Friday "))
              (Some (str "https://app.slack.com/client/T1")) (Some (str "Slack"))
              (Threw (str "Could not establish connection")) (Some 1920%Z))
    as (_ & Hclick & _).
  destruct (Hclick eq_refl eq_refl) as [_ Hfallback].
  destruct (Hfallback ltac:(discriminate)) as [Hwindow _].
  destruct (Hwindow 1920%Z eq_refl) as [Hr _]. exact Hr.
Defined.

(** X18.  [submitTask] is answered with [success: true] exactly when the
    backend answers the POST inside 200-299 with a readable body, and the
    answer then carries a result and no error.  Otherwise it carries an
    error and no result; for an answer outside 200-299 the error is the
    body's [error] when that is a non-empty string and 'Backend error:
    <status>' when it is not.  The posted task always has a source and a
    priority, 'web' and 'medium' when the message had none. *)
Theorem submitTask_answer
    (post : Payload → Outcome (Response Created)) (task : Submission) (now : jstr) :
  let answer := onSubmitTask post task now in
  (answer_success answer = true ↔
   ∃ response result, post (payload_of task now) = Returned response ∧
                      ok response = true ∧ json response = Returned result) ∧
  (answer_success answer = true →
   is_Some (answer_result answer) ∧ answer_error answer = None) ∧
  (answer_success answer = false →
   is_Some (answer_error answer) ∧ answer_result answer = None) ∧
  (∀ response result,
     post (payload_of task now) = Returned response →
     json response = Returned result →
     ok response = false →
     answer_error answer
     = Some (or_else (created_error result)
               (str "Backend error: " ++ ForgeMore.decimal (status_code response)))) ∧
  pl_source (payload_of task now) ≠ [] ∧
  pl_priority (payload_of task now) ≠ [] ∧
  (truthy (sub_source task) = false → pl_source (payload_of task now) = str "web") ∧
  (truthy (sub_priority task) = false →
   pl_priority (payload_of task now) = str "medium").
Proof.
  intros answer. subst answer. unfold onSubmitTask, submitTaskToBackend.
  split_and!.
  - destruct (post _) as [? | response] eqn:Hpost; simpl.
    { split; [done | by intros (? & ? & ? & _)]. }
    destruct (json response) as [? | result] eqn:Hjson; simpl.
    { split; [done | intros (? & ? & [= <-] & _ & ?); congruence]. }
    destruct (ok response) eqn:Hok; simpl.
    + split; [eauto 6 | done].
    + split; [done | intros (? & ? & [= <-] & ? & _); congruence].
  - destruct (post _) as [? | response]; simpl; [done|].
    destruct (json response) as [? | result]; simpl; [done|].
    destruct (ok response); simpl; [eauto | done].
  - destruct (post _) as [? | response]; simpl; [eauto|].
    destruct (json response) as [? | result]; simpl; [eauto|].
    destruct (ok response); simpl; [done | eauto].
  - intros response result -> -> ->. done.
  - by apply or_else_nonempty.
  - by apply or_else_nonempty.
  - simpl. by destruct (sub_source task) as [[|? ?]|].
  - simpl. by destruct (sub_priority task) as [[|? ?]|].
Qed.

Lemma submitTask_answer_witness :
  let post := λ _ : Payload,
    Returned (mkResponse 503 (Returned (mkCreated None None None))) in
  let task := mkSubmission (Some (str "Call Sam")) (Some (str "Call Sam")) None
                None None None None (Some true) in
  answer_error (onSubmitTask post task (str "2024-05-02T10:00:00.000Z"))
  = Some (str "Backend error: 503").
Proof.
  intros post task.
  destruct (submitTask_answer post task (str "2024-05-02T10:00:00.000Z"))
    as (_ & _ & _ & Herror & _).
  apply (Herror (mkResponse 503 (Returned (mkCreated None None None)))
           (mkCreated None None None) eq_refl eq_refl eq_refl).
Defined.

End ExtensionFacts.

(** ** The popup's task list *)

Section PopupListFacts.

Import Forge Extension PopupList.

Implicit Types (st : PopupState) (tasks : list Shown).

Lemma delete_beyond tasks (index : nat) :
  length tasks ≤ index → delete index tasks = tasks.
Proof.
  revert index. induction tasks as [|x tasks IH]; intros [|index] Hlen;
    simpl in *; try done; try lia.
  f_equal. apply IH. lia.
Qed.

(** X19.  An "add" click on a locally stored task with a text sends one
    [submitTask] message carrying the full text as description and the
    generated title, and then removes the task from [pendingTasks]
    whatever the answer's [success] is: a submission that the background
    script reports as failed still costs the local copy.  Only when the
    message itself cannot be delivered is the list left as it was. *)
Theorem add_click_removes_the_task_whatever_the_answer
    (index : nat) (now : jstr) (send : Submission → Outcome bool)
    (st : PopupState) (task : Shown) (text : jstr) :
  default [] (pendingTasks st) !! index = Some task →
  task_text task = Some text →
  let tasks := default [] (pendingTasks st) in
  let message := submission_of task text now in
  let r := handleTaskAction (str "add") index now send st in
  sub_title message = Some (Popup.generateTitle text) ∧
  sub_description message = Some text ∧
  (∀ success, send message = Returned success →
     r = (Returned tt,
          mkPopupState (Some (delete index tasks))
            (popup_log st ++ [SendSubmitTask message;
                              SetPendingTasks (delete index tasks)])) ∧
     length (delete index tasks) + 1 = length tasks ∧
     (∀ j, j < index → delete index tasks !! j = tasks !! j) ∧
     (∀ j, index ≤ j → delete index tasks !! j = tasks !! S j)) ∧
  (∀ error, send message = Threw error →
     r = (Threw error,
          mkPopupState (pendingTasks st) (popup_log st ++ [SendSubmitTask message]))).
Proof.
  intros Htask Htext tasks message r. subst r.
  unfold handleTaskAction. fold tasks. rewrite bool_decide_eq_true_2 by done.
  fold tasks in Htask. rewrite Htask. simpl. rewrite Htext. fold message.
  split_and!; [done | done | |].
  - intros success ->. unfold remove_and_store. rewrite <- app_assoc.
    split_and!; [done | | |].
    + pose proof (lookup_lt_Some _ _ _ Htask) as Hlt.
      rewrite length_delete by eauto. lia.
    + intros j Hj. by rewrite list_lookup_delete_lt.
    + intros j Hj. by rewrite list_lookup_delete_ge.
  - by intros error ->.
Qed.

Lemma add_click_removes_the_task_whatever_the_answer_witness :
  let task := mkShown None (Some (str "Call Sam")) (Some (str "chat")) None None in
  let st := mkPopupState (Some [task]) [] in
  let post := λ _ : Payload, @Threw (Response Created) (str "Failed to fetch") in
  let send := λ message,
    Returned (answer_success (onSubmitTask post message (str "2024-05-02T10:00:01.000Z"))) in
  let r := handleTaskAction (str "add") 0 (str "2024-05-02T10:00:00.000Z") send st in
  send (submission_of task (str "Call Sam") (str "2024-05-02T10:00:00.000Z"))
    = Returned false ∧
  pendingTasks r.2 = Some [].
Proof.
  intros task st post send r. split; [reflexivity|].
  destruct (add_click_removes_the_task_whatever_the_answer 0
              (str "2024-05-02T10:00:00.000Z") send st task (str "Call Sam")
              eq_refl eq_refl) as (_ & _ & Hreturned & _).
  destruct (Hreturned false eq_refl) as [Hr _].
  fold r in Hr. by rewrite Hr.
Defined.

(** X20.  A click on any other button (Dismiss) always removes the task at
    its index from [pendingTasks] and never sends a message.  It asks the
    backend to delete a task exactly when the local task at that index has
    a string id that starts with 'task-'; with an index beyond the local
    list it deletes nothing and stores the list as it was. *)
Theorem dismiss_click_removes_locally
    (action : jstr) (index : nat) (now : jstr) (send : Submission → Outcome bool)
    (st : PopupState) :
  action ≠ str "add" →
  let tasks := default [] (pendingTasks st) in
  let r := handleTaskAction action index now send st in
  r.1 = Returned tt ∧
  pendingTasks r.2 = Some (delete index tasks) ∧
  (∀ task taskId,
     tasks !! index = Some task → task_id task = Some taskId →
     startsWith taskId (str "task-") = true →
     popup_log r.2 = popup_log st
       ++ [FetchDelete taskId; SetPendingTasks (delete index tasks)]) ∧
  ((∀ task taskId,
      tasks !! index = Some task → task_id task = Some taskId →
      startsWith taskId (str "task-") = false) →
   popup_log r.2 = popup_log st ++ [SetPendingTasks (delete index tasks)]) ∧
  (length tasks ≤ index →
   r = (Returned tt,
        mkPopupState (Some tasks) (popup_log st ++ [SetPendingTasks tasks]))).
Proof.
  intros Haction tasks r. subst r.
  unfold handleTaskAction. fold tasks. rewrite bool_decide_eq_false_2 by done.
  split_and!.
  - destruct (tasks !! index ≫= task_id) as [[|c taskId]|]; [done | | done].
    by destruct (startsWith _ _).
  - destruct (tasks !! index ≫= task_id) as [[|c taskId]|]; [done | | done].
    by destruct (startsWith _ _).
  - intros task taskId -> Hid Hprefix. cbn [mbind option_bind]. rewrite Hid.
    destruct taskId as [|c taskId]; [by vm_compute in Hprefix|]. rewrite Hprefix.
    unfold remove_and_store. cbn [snd popup_log]. by rewrite <- app_assoc.
  - intros Hnone. destruct (tasks !! index) as [task|]; [|done].
    cbn [mbind option_bind].
    destruct (task_id task) as [[|c taskId]|] eqn:Hid; [done | | done].
    by rewrite (Hnone task (c :: taskId)).
  - intros Hbeyond. rewrite (lookup_ge_None_2 tasks index) by done.
    cbn [mbind option_bind]. unfold remove_and_store. by rewrite delete_beyond.
Qed.

Lemma dismiss_click_removes_locally_witness :
  let task := mkShown (Some (str "task-17")) (Some (str "Call Sam")) None None None in
  let st := mkPopupState (Some [task]) [] in
  popup_log (handleTaskAction (str "dismiss") 0 (str "2024-05-02T10:00:00.000Z")
               (λ _, Returned true) st).2
  = [FetchDelete (str "task-17"); SetPendingTasks []].
Proof.
  intros task st.
  destruct (dismiss_click_removes_locally (str "dismiss") 0
              (str "2024-05-02T10:00:00.000Z") (λ _, Returned true) st)
    as (_ & _ & Hdelete & _); [discriminate|].
  apply (Hdelete task (str "task-17")); reflexivity.
Defined.

(** X21.  [loadTasks] shows the backend's tasks whenever the backend lists
    at least one, and the locally stored ones only when it lists none or
    cannot be read.  The buttons, however, act on the local list by index:
    while the backend's tasks are shown and nothing is stored locally,
    "add" throws before any message is sent and "dismiss" asks for no
    deletion, for every index. *)
Theorem backend_listing_is_shown_but_buttons_use_local_list
    (fetched : Outcome (Response (list BackendTask)))
    (local : option (list Shown)) :
  (∀ response backendTasks,
     fetched = Returned response → ok response = true →
     json response = Returned backendTasks → backendTasks ≠ [] →
     loadTasks fetched local = of_backend <$> backendTasks ∧
     length (loadTasks fetched local) = length backendTasks) ∧
  (match fetched with
   | Threw _ => True
   | Returned response =>
       ok response = false ∨ (∃ message, json response = Threw message) ∨
       json response = Returned []
   end → loadTasks fetched local = default [] local) ∧
  (∀ index now send log action,
     length (default [] local) ≤ index →
     handleTaskAction (str "add") index now send (mkPopupState local log)
       = (Threw (str "TypeError"), mkPopupState local log) ∧
     (action ≠ str "add" →
      popup_log (handleTaskAction action index now send (mkPopupState local log)).2
        = log ++ [SetPendingTasks (default [] local)])).
Proof.
  split_and!.
  - intros response backendTasks -> Hok Hjson Hne. unfold loadTasks.
    rewrite Hok, Hjson. destruct backendTasks as [|bt rest]; [done|].
    split; [done|]. simpl. by rewrite length_fmap.
  - unfold loadTasks. destruct fetched as [? | response]; [done|].
    destruct (ok response); [|done].
    intros [? | [[message ->] | ->]]; done.
  - intros index now send log action Hbeyond. unfold handleTaskAction.
    cbn [pendingTasks popup_log].
    rewrite (lookup_ge_None_2 (default [] local) index) by done.
    split.
    + by rewrite bool_decide_eq_true_2.
    + intros Haction. rewrite bool_decide_eq_false_2 by done.
      cbn [mbind option_bind]. unfold remove_and_store.
      by rewrite delete_beyond.
Qed.

Lemma backend_listing_is_shown_but_buttons_use_local_list_witness :
  let listing := [Samples.backendTask "task-17" "Call Sam"] in
  let fetched := Returned (mkResponse 200 (Returned listing)) in
  length (loadTasks fetched None) = 1 ∧
  popup_log (handleTaskAction (str "dismiss") 0 (str "2024-05-02T10:00:00.000Z")
               (λ _, Returned true) (mkPopupState None [])).2
  = [SetPendingTasks []].
Proof.
  intros listing fetched.
  destruct (backend_listing_is_shown_but_buttons_use_local_list fetched None)
    as (Hshown & _ & Hclicks).
  split.
  - destruct (Hshown (mkResponse 200 (Returned listing)) listing
                eq_refl eq_refl eq_refl ltac:(discriminate)) as [_ Hlen].
    exact Hlen.
  - destruct (Hclicks 0 (str "2024-05-02T10:00:00.000Z") (λ _, Returned true) []
                (str "dismiss") ltac:(simpl; lia)) as [_ Hdismiss].
    apply Hdismiss. discriminate.
Defined.

End PopupListFacts.
